(** * Orders service (service_orders/index.js): model and properties

    The Express application keeps its orders in one in-memory [Map] and
    answers five routes behind [authMiddleware].  Each handler is embedded
    as a function from the store and the request to the new store and the
    outcome (a response, or an exception that Express hands to the
    application's error handler).

    Conventions of the embedding:
    - a JavaScript string is a [string]; one character of the model stands
      for one UTF-16 code unit, so [String.length] is [.length];
    - a JavaScript number is an element of an abstract type [num] with the
      operations the service uses (class [JSNumber]); array lengths, page
      numbers and page sizes are in [Z], and the integer that [parseInt]
      reads is taken exactly, as the code's doubles have it up to [2^53];
    - the JSON values that reach the handlers (the body, the parsed roles
      header) are [JValue]s; a roles header comes with what [JSON.parse]
      makes of it;
    - an ISO timestamp produced by [new Date().toISOString()] is the
      millisecond count it denotes ([new Date(iso).getTime()] gives it back);
    - [uuidv4()] and the clock are inputs of the handlers that use them;
    - an object held by the map and changed in place is replaced in the
      store under the key it was fetched with;
    - logging and [publishEvent], which only logs, are left out. *)

From Stdlib Require Import ZArith String Ascii Bool Lia Sorted.
From stdpp Require Import base option list strings.

Local Open Scope string_scope.
Local Open Scope list_scope.
Set Warnings "-register-all".

(** ** JavaScript numbers *)

(** The operations of [Number] that the service relies on.  [num_toFixed2 x]
    is [parseFloat(x.toFixed(2))]. *)
Class JSNumber (num : Type) := {
  num_zero : num;
  num_add : num -> num -> num;
  num_mul : num -> num -> num;
  num_ltb : num -> num -> bool;
  num_isNaN : num -> bool;
  num_isInteger : num -> bool;
  num_toFixed2 : num -> num
}.

(** The whole numbers, on which every operation above is exact and
    [toFixed(2)] followed by [parseFloat] gives the number back. *)
#[export] Instance WholeNumber : JSNumber Z := {|
  num_zero := 0%Z;
  num_add := Z.add;
  num_mul := Z.mul;
  num_ltb := Z.ltb;
  num_isNaN := fun _ => false;
  num_isInteger := fun _ => true;
  num_toFixed2 := fun x => x
|}.

(** ** Data *)

Section Data.

Variable num : Type.

(** A value produced by [JSON.parse]; an object keeps its members in the
    order of the text. *)
Inductive JValue :=
| JNull
| JBool (b : bool)
| JNum (n : num)
| JStr (s : string)
| JArr (elements : list JValue)
| JObj (members : list (string * JValue)).

(** [obj[key]]: the last member of that name wins, [None] is [undefined]. *)
Fixpoint obj_get (members : list (string * JValue)) (key : string) : option JValue :=
  match members with
  | [] => None
  | (k, v) :: rest =>
      match obj_get rest key with
      | Some v' => Some v'
      | None => if String.eqb k key then Some v else None
      end
  end.

Inductive Status := created | in_progress | completed | cancelled.

Record Item := mkItem {
  product : string;
  quantity : num;
  price : num
}.

Record Order := mkOrder {
  id : string;
  userId : string;
  items : list Item;
  status : Status;
  totalAmount : num;
  createdAt : Z;
  updatedAt : Z
}.

(** [const orders = new Map()]: the entries in insertion order. *)
Definition Store := list (string * Order).

Fixpoint Map_get (m : Store) (key : string) : option Order :=
  match m with
  | [] => None
  | (k, o) :: rest => if String.eqb k key then Some o else Map_get rest key
  end.

(** [orders.set(key, o)]: an existing key keeps its place. *)
Fixpoint Map_set (m : Store) (key : string) (o : Order) : Store :=
  match m with
  | [] => [(key, o)]
  | (k, o') :: rest =>
      if String.eqb k key then (k, o) :: rest else (k, o') :: Map_set rest key o
  end.

Definition Map_values (m : Store) : list Order := map snd m.

(** *** Zod issues *)

Inductive ZodParsedType :=
| zt_undefined | zt_null | zt_boolean | zt_number | zt_nan | zt_string
| zt_array | zt_object | zt_integer | zt_float | zt_enum.

Inductive ZodIssueCode :=
| invalid_type (expected received : ZodParsedType)
| too_small (type : ZodParsedType) (minimum : Z) (inclusive : bool)
| too_big (type : ZodParsedType) (maximum : Z) (inclusive : bool)
| invalid_enum_value.

Inductive PathElem := Key (k : string) | Index (i : nat).

(** The message of an issue: the text given in the schema, or the text of
    Zod's default error map for that issue. *)
Inductive Message := Text (s : string) | ZodDefault.

Record ZodIssue := mkIssue {
  issue_code : ZodIssueCode;
  issue_path : list PathElem;
  issue_message : Message
}.

(** What a schema's [_parse] gives: the issues it added, in order, and the
    parsed value unless the parse was aborted. *)
Definition ParseReturn (A : Type) : Type := list ZodIssue * option A.

(** [schema.parse(data)]: the value, or a thrown [ZodError] with the issues. *)
Inductive ParseResult (A : Type) :=
| ParseOk (value : A)
| ZodError (errors : list ZodIssue).

(** *** Responses *)

Record Pagination := mkPagination {
  pg_page : Z;
  pg_limit : Z;
  pg_total : Z;
  pg_totalPages : Z;
  pg_hasNext : bool;
  pg_hasPrev : bool
}.

Inductive Payload :=
| DataOrder (o : Order)
| DataList (orders : list Order) (pagination : Pagination).

Record ErrorBody := mkError {
  code : string;
  message : Message;
  details : option (list ZodIssue)
}.

Inductive Envelope :=
| Success (data : Payload)
| Failure (error : ErrorBody).

Record Response := mkResponse {
  res_status : Z;
  res_body : Envelope
}.

Inductive Exception := TypeError | SyntaxError.

(** What running a middleware or a handler ends in. *)
Inductive Outcome :=
| Sent (r : Response)
| Thrown (e : Exception).

(** *** Requests *)

(** [req.headers['x-user-roles']]: absent or empty (falsy), or a text, given
    with what [JSON.parse] makes of it ([None] when it throws). *)
Inductive RolesHeader :=
| NoRoles
| RolesText (parsed : option JValue).

Record Headers := mkHeaders {
  x_user_id : option string;
  x_user_roles : RolesHeader;
  authorization : option string
}.

Record Query := mkQuery {
  q_page : option string;
  q_limit : option string;
  q_sortBy : option string;
  q_sortOrder : option string;
  q_status : option string
}.

(** The request as the handlers see it, once [authMiddleware] has set
    [req.userId] and [req.userRoles]. *)
Record Request := mkRequest {
  req_userId : string;
  req_userRoles : JValue;
  req_params_id : string;
  req_body : JValue;
  req_query : Query
}.

Inductive AuthResult :=
| AuthNext (uid : string) (roles : JValue)
| AuthSent (r : Response)
| AuthThrown (e : Exception).

(** The request as it reaches the application. *)
Record Incoming := mkIncoming {
  in_headers : Headers;
  in_params_id : string;
  in_body : JValue;
  in_query : Query
}.

End Data.

Arguments JNull {num}.
Arguments JBool {num} b.
Arguments JNum {num} n.
Arguments JStr {num} s.
Arguments JArr {num} elements.
Arguments JObj {num} members.
Arguments obj_get {num} members key.
Arguments mkItem {num} _ _ _.
Arguments product {num} _.
Arguments quantity {num} _.
Arguments price {num} _.
Arguments mkOrder {num} _ _ _ _ _ _ _.
Arguments id {num} _.
Arguments userId {num} _.
Arguments items {num} _.
Arguments status {num} _.
Arguments totalAmount {num} _.
Arguments createdAt {num} _.
Arguments updatedAt {num} _.
Arguments Map_get {num} m key.
Arguments Map_set {num} m key o.
Arguments Map_values {num} m.
Arguments ParseOk {A} value.
Arguments ZodError {A} errors.
Arguments DataOrder {num} o.
Arguments DataList {num} orders pagination.
Arguments Success {num} data.
Arguments Failure {num} error.
Arguments mkResponse {num} _ _.
Arguments res_status {num} _.
Arguments res_body {num} _.
Arguments Sent {num} r.
Arguments Thrown {num} e.
Arguments NoRoles {num}.
Arguments RolesText {num} parsed.
Arguments mkHeaders {num} _ _ _.
Arguments x_user_id {num} _.
Arguments x_user_roles {num} _.
Arguments authorization {num} _.
Arguments mkRequest {num} _ _ _ _ _.
Arguments req_userId {num} _.
Arguments req_userRoles {num} _.
Arguments req_params_id {num} _.
Arguments req_body {num} _.
Arguments req_query {num} _.
Arguments AuthNext {num} uid roles.
Arguments AuthSent {num} r.
Arguments AuthThrown {num} e.
Arguments mkIncoming {num} _ _ _ _.
Arguments in_headers {num} _.
Arguments in_params_id {num} _.
Arguments in_body {num} _.
Arguments in_query {num} _.

(** ** Operations *)

Section Service.

Context {num : Type} {NUM : JSNumber num}.

(** *** Error responses *)

Definition fail (st : Z) (c : string) (m : Message) : Response num :=
  mkResponse st (Failure (mkError c m None)).

Definition internal_error : Response num :=
  fail 500 "INTERNAL_ERROR" (Text "Внутренняя ошибка сервера").

(** The application's error handler, which Express calls with whatever a
    middleware or a handler throws. *)
Definition errorHandler (e : Exception) : Response num := internal_error.

Definition express (o : Outcome num) : Response num :=
  match o with
  | Sent r => r
  | Thrown e => errorHandler e
  end.

(** *** authMiddleware *)

(** [!userId]: the header is absent or the empty string. *)
Definition falsy_header (h : option string) : bool :=
  match h with
  | None => true
  | Some s => String.eqb s ""
  end.

Definition authMiddleware (h : Headers num) : AuthResult num :=
  match x_user_id h with
  | None => AuthSent (fail 401 "UNAUTHORIZED" (Text "Не авторизован"))
  | Some uid =>
      if String.eqb uid "" then
        AuthSent (fail 401 "UNAUTHORIZED" (Text "Не авторизован"))
      else
        match x_user_roles h with
        | NoRoles => AuthNext uid (JArr [])
        | RolesText (Some v) => AuthNext uid v
        | RolesText None => AuthThrown SyntaxError
        end
  end.

(** *** req.userRoles.includes('admin') *)

Fixpoint is_prefix (p s : string) : bool :=
  match p, s with
  | EmptyString, _ => true
  | String a p', String b s' => Ascii.eqb a b && is_prefix p' s'
  | String _ _, EmptyString => false
  end.

(** [String.prototype.includes]: [p] occurs somewhere in [s]. *)
Fixpoint str_includes (s p : string) : bool :=
  is_prefix p s ||
  match s with
  | EmptyString => false
  | String _ s' => str_includes s' p
  end.

Definition is_str (v : JValue num) (s : string) : bool :=
  match v with
  | JStr s' => String.eqb s' s
  | _ => false
  end.

(** On an array this is [Array.prototype.includes], on a string
    [String.prototype.includes]; any other value has no such method and the
    call throws a [TypeError] ([None]). *)
Definition includes (roles : JValue num) (role : string) : option bool :=
  match roles with
  | JArr l => Some (existsb (fun v => is_str v role) l)
  | JStr s => Some (str_includes s role)
  | _ => None
  end.

(** [order.userId !== req.userId && !req.userRoles.includes('admin')]; the
    right operand is evaluated only when the left one holds. *)
Definition access_denied (o : Order num) (req : Request num) : option bool :=
  if String.eqb (userId o) (req_userId req) then Some false
  else negb <$> includes (req_userRoles req) "admin".

(** *** Validation schemas *)

Definition parsedType (v : option (JValue num)) : ZodParsedType :=
  match v with
  | None => zt_undefined
  | Some JNull => zt_null
  | Some (JBool _) => zt_boolean
  | Some (JNum n) => if num_isNaN n then zt_nan else zt_number
  | Some (JStr _) => zt_string
  | Some (JArr _) => zt_array
  | Some (JObj _) => zt_object
  end.

Definition issue_if (b : bool) (i : ZodIssue) : list ZodIssue :=
  if b then [i] else [].

(** [z.string().min(1, 'Название товара обязательно').max(200)] *)
Definition product_schema (path : list PathElem) (v : option (JValue num))
  : ParseReturn string :=
  match v with
  | Some (JStr s) =>
      (issue_if (Z.of_nat (String.length s) <? 1)%Z
         (mkIssue (too_small zt_string 1 true) path
            (Text "Название товара обязательно")) ++
       issue_if (200 <? Z.of_nat (String.length s))%Z
         (mkIssue (too_big zt_string 200 true) path ZodDefault),
       Some s)
  | _ => ([mkIssue (invalid_type zt_string (parsedType v)) path ZodDefault], None)
  end.

(** [z.number().int().positive('Количество должно быть положительным числом')] *)
Definition quantity_schema (path : list PathElem) (v : option (JValue num))
  : ParseReturn num :=
  match v with
  | Some (JNum n) =>
      if num_isNaN n then
        ([mkIssue (invalid_type zt_number zt_nan) path ZodDefault], None)
      else
        (issue_if (negb (num_isInteger n))
           (mkIssue (invalid_type zt_integer zt_float) path ZodDefault) ++
         issue_if (negb (num_ltb num_zero n))
           (mkIssue (too_small zt_number 0 false) path
              (Text "Количество должно быть положительным числом")),
         Some n)
  | _ => ([mkIssue (invalid_type zt_number (parsedType v)) path ZodDefault], None)
  end.

(** [z.number().positive('Цена должна быть положительным числом')] *)
Definition price_schema (path : list PathElem) (v : option (JValue num))
  : ParseReturn num :=
  match v with
  | Some (JNum n) =>
      if num_isNaN n then
        ([mkIssue (invalid_type zt_number zt_nan) path ZodDefault], None)
      else
        (issue_if (negb (num_ltb num_zero n))
           (mkIssue (too_small zt_number 0 false) path
              (Text "Цена должна быть положительным числом")),
         Some n)
  | _ => ([mkIssue (invalid_type zt_number (parsedType v)) path ZodDefault], None)
  end.

(** [z.object({ product, quantity, price })]: the keys are parsed in the
    order of the shape, unknown keys are dropped. *)
Definition item_schema (path : list PathElem) (v : option (JValue num))
  : ParseReturn (Item num) :=
  match v with
  | Some (JObj members) =>
      let p := product_schema (path ++ [Key "product"]) (obj_get members "product") in
      let q := quantity_schema (path ++ [Key "quantity"]) (obj_get members "quantity") in
      let c := price_schema (path ++ [Key "price"]) (obj_get members "price") in
      (p.1 ++ q.1 ++ c.1,
       p' ← p.2; q' ← q.2; c' ← c.2; Some (mkItem p' q' c'))
  | _ => ([mkIssue (invalid_type zt_object (parsedType v)) path ZodDefault], None)
  end.

(** The elements of an array, parsed in order from index [i] on. *)
Fixpoint elements_schema (path : list PathElem) (i : nat) (l : list (JValue num))
  : ParseReturn (list (Item num)) :=
  match l with
  | [] => ([], Some [])
  | x :: rest =>
      let r := item_schema (path ++ [Index i]) (Some x) in
      let rs := elements_schema path (S i) rest in
      (r.1 ++ rs.1, it ← r.2; its ← rs.2; Some (it :: its))
  end.

(** [z.array(item).min(1, ...).max(100, ...)]: the two length checks, then
    the elements. *)
Definition items_schema (path : list PathElem) (v : option (JValue num))
  : ParseReturn (list (Item num)) :=
  match v with
  | Some (JArr l) =>
      let rs := elements_schema path 0 l in
      (issue_if (Z.of_nat (length l) <? 1)%Z
         (mkIssue (too_small zt_array 1 true) path
            (Text "Заказ должен содержать хотя бы один товар")) ++
       issue_if (100 <? Z.of_nat (length l))%Z
         (mkIssue (too_big zt_array 100 true) path
            (Text "Слишком много товаров в заказе")) ++
       rs.1,
       rs.2)
  | _ => ([mkIssue (invalid_type zt_array (parsedType v)) path ZodDefault], None)
  end.

(** [createOrderSchema = z.object({ items: ... })] *)
Definition createOrderSchema (body : JValue num) : ParseReturn (list (Item num)) :=
  match body with
  | JObj members => items_schema [Key "items"] (obj_get members "items")
  | _ => ([mkIssue (invalid_type zt_object (parsedType (Some body))) [] ZodDefault], None)
  end.

Definition status_enum (s : string) : option Status :=
  if String.eqb s "created" then Some created
  else if String.eqb s "in_progress" then Some in_progress
  else if String.eqb s "completed" then Some completed
  else if String.eqb s "cancelled" then Some cancelled
  else None.

Definition status_message : Message :=
  Text "Недопустимый статус. Допустимые значения: created, in_progress, completed, cancelled".

(** [updateStatusSchema = z.object({ status: z.enum([...], { errorMap }) })] *)
Definition updateStatusSchema (body : JValue num) : ParseReturn Status :=
  match body with
  | JObj members =>
      match obj_get members "status" with
      | Some (JStr s) =>
          match status_enum s with
          | Some st => ([], Some st)
          | None => ([mkIssue invalid_enum_value [Key "status"] status_message], None)
          end
      | v => ([mkIssue (invalid_type zt_enum (parsedType v)) [Key "status"]
                 status_message], None)
      end
  | _ => ([mkIssue (invalid_type zt_object (parsedType (Some body))) [] ZodDefault], None)
  end.

(** [schema.parse]: the value when no issue was added, else [ZodError]. *)
Definition parse {A : Type} (r : ParseReturn A) : ParseResult A :=
  match r with
  | ([], Some v) => ParseOk v
  | (issues, _) => ZodError issues
  end.

(** *** POST /api/v1/orders *)

(** [items.reduce((sum, item) => sum + (item.price * item.quantity), 0)] *)
Definition reduce_total (its : list (Item num)) : num :=
  fold_left (fun sum item => num_add sum (num_mul (price item) (quantity item)))
    its num_zero.

(** The [catch] blocks' answer to a [ZodError]: [error.errors[0].message],
    with [details: error.errors] in the create handler only.  Reading
    [.message] of a missing first issue would throw out of the block. *)
Definition validation_error (errors : list ZodIssue) (with_details : bool)
  : Outcome num :=
  match errors with
  | first :: _ =>
      Sent (mkResponse 400 (Failure (mkError "VALIDATION_ERROR" (issue_message first)
              (if with_details then Some errors else None))))
  | [] => Thrown TypeError
  end.

Definition postOrders (uuid : string) (now1 now2 : Z)
    (orders : Store num) (req : Request num) : Store num * Outcome num :=
  match parse (createOrderSchema (req_body req)) with
  | ParseOk validated_items =>
      let total := reduce_total validated_items in
      let order :=
        mkOrder uuid (req_userId req) validated_items created
                (num_toFixed2 total) now1 now2 in
      (Map_set orders (id order) order,
       Sent (mkResponse 201 (Success (DataOrder order))))
  | ZodError errors => (orders, validation_error errors true)
  end.

(** *** GET /api/v1/orders/:id *)

Definition not_found : Response num :=
  fail 404 "ORDER_NOT_FOUND" (Text "Заказ не найден").

Definition getOrder (orders : Store num) (req : Request num)
  : Store num * Outcome num :=
  match Map_get orders (req_params_id req) with
  | None => (orders, Sent not_found)
  | Some order =>
      match access_denied order req with
      | None => (orders, Thrown TypeError)
      | Some true =>
          (orders, Sent (fail 403 "FORBIDDEN"
                           (Text "Недостаточно прав для доступа к этому заказу")))
      | Some false => (orders, Sent (mkResponse 200 (Success (DataOrder order))))
      end
  end.

(** *** PATCH /api/v1/orders/:id/status *)

Definition Status_eqb (a b : Status) : bool :=
  match a, b with
  | created, created | in_progress, in_progress
  | completed, completed | cancelled, cancelled => true
  | _, _ => false
  end.

(** [order.status = st; order.updatedAt = new Date().toISOString()] on the
    object that the map holds. *)
Definition set_status (order : Order num) (st : Status) (now : Z) : Order num :=
  mkOrder (id order) (userId order) (items order) st (totalAmount order)
          (createdAt order) now.

(** The body of the handler is one [try] block: a [TypeError] raised by the
    role check lands in its [catch] and is answered with 500. *)
Definition patchStatus (now : Z) (orders : Store num) (req : Request num)
  : Store num * Outcome num :=
  match parse (updateStatusSchema (req_body req)) with
  | ZodError errors => (orders, validation_error errors false)
  | ParseOk new_status =>
      match Map_get orders (req_params_id req) with
      | None => (orders, Sent not_found)
      | Some order =>
          match access_denied order req with
          | None => (orders, Sent internal_error)
          | Some true =>
              (orders, Sent (fail 403 "FORBIDDEN"
                 (Text "Недостаточно прав для изменения статуса этого заказа")))
          | Some false =>
              if Status_eqb (status order) completed
                 && negb (Status_eqb new_status completed) then
                (orders, Sent (fail 400 "INVALID_STATUS_TRANSITION"
                   (Text "Невозможно изменить статус завершенного заказа")))
              else if Status_eqb (status order) cancelled
                      && negb (Status_eqb new_status cancelled) then
                (orders, Sent (fail 400 "INVALID_STATUS_TRANSITION"
                   (Text "Невозможно изменить статус отмененного заказа")))
              else
                let order' := set_status order new_status now in
                (Map_set orders (req_params_id req) order',
                 Sent (mkResponse 200 (Success (DataOrder order'))))
          end
      end
  end.

(** *** DELETE /api/v1/orders/:id *)

Definition deleteOrder (now : Z) (orders : Store num) (req : Request num)
  : Store num * Outcome num :=
  match Map_get orders (req_params_id req) with
  | None => (orders, Sent not_found)
  | Some order =>
      match access_denied order req with
      | None => (orders, Thrown TypeError)
      | Some true =>
          (orders, Sent (fail 403 "FORBIDDEN"
                           (Text "Недостаточно прав для отмены этого заказа")))
      | Some false =>
          if Status_eqb (status order) completed then
            (orders, Sent (fail 400 "CANNOT_CANCEL_COMPLETED"
                             (Text "Невозможно отменить завершенный заказ")))
          else if Status_eqb (status order) cancelled then
            (orders, Sent (fail 400 "ALREADY_CANCELLED" (Text "Заказ уже отменен")))
          else
            let order' := set_status order cancelled now in
            (Map_set orders (req_params_id req) order',
             Sent (mkResponse 200 (Success (DataOrder order'))))
      end
  end.

(** *** GET /api/v1/orders *)

(** Code units that [parseInt] skips at the start (those below 256). *)
Definition is_white (c : ascii) : bool :=
  let n := nat_of_ascii c in
  (n =? 9)%nat || (n =? 10)%nat || (n =? 11)%nat || (n =? 12)%nat
  || (n =? 13)%nat || (n =? 32)%nat || (n =? 160)%nat.

Fixpoint trim_start (s : string) : string :=
  match s with
  | String c s' => if is_white c then trim_start s' else s
  | EmptyString => s
  end.

Definition digit_value (c : ascii) : option Z :=
  let n := Z.of_nat (nat_of_ascii c) in
  if (48 <=? n)%Z && (n <=? 57)%Z then Some (n - 48)%Z
  else if (97 <=? n)%Z && (n <=? 122)%Z then Some (n - 87)%Z
  else if (65 <=? n)%Z && (n <=? 90)%Z then Some (n - 55)%Z
  else None.

(** The value of the longest prefix of digits of the radix; [acc] is the
    value read so far, [None] while no digit has been read. *)
Fixpoint read_digits (radix : Z) (s : string) (acc : option Z) : option Z :=
  match s with
  | EmptyString => acc
  | String c s' =>
      match digit_value c with
      | Some d =>
          if (d <? radix)%Z
          then read_digits radix s' (Some (default 0%Z acc * radix + d)%Z)
          else acc
      | None => acc
      end
  end.

(** [parseInt(s)] with no radix given; [None] is [NaN].  The value is the
    integer that the digits denote.  The code holds it as a double, which is
    that integer as long as it lies within [2^53] of zero; beyond, the
    double is a rounding of it. *)
Definition parseInt (s : string) : option Z :=
  let s1 := trim_start s in
  let signed :=
    match s1 with
    | String "-" r => ((-1)%Z, r)
    | String "+" r => (1%Z, r)
    | _ => (1%Z, s1)
    end in
  let prefixed :=
    match signed.2 with
    | String "0" (String "x" r) | String "0" (String "X" r) => (16%Z, r)
    | s2 => (10%Z, s2)
    end in
  Z.mul signed.1 <$> read_digits prefixed.1 prefixed.2 None.

(** [parseInt(q) || d]: [NaN] and [0] are falsy; an absent parameter is
    [undefined], which [parseInt] reads as [NaN]. *)
Definition parseInt_or (q : option string) (d : Z) : Z :=
  match q ≫= parseInt with
  | Some n => if (n =? 0)%Z then d else n
  | None => d
  end.

Definition status_name (st : Status) : string :=
  match st with
  | created => "created"
  | in_progress => "in_progress"
  | completed => "completed"
  | cancelled => "cancelled"
  end.

(** [String(items)]: every item prints as [[object Object]]. *)
Fixpoint items_toString (its : list (Item num)) : string :=
  match its with
  | [] => ""
  | [_] => "[object Object]"
  | _ :: rest => String.append "[object Object]," (items_toString rest)
  end.

(** What [a[sortBy]] is compared as: dates through [getTime()], and every
    key that is not a field of the record as a value equal on all orders. *)
Inductive SortValue :=
| VTime (t : Z)
| VStr (s : string)
| VNum (n : num)
| VOther.

Definition sort_value (o : Order num) (sortBy : string) : SortValue :=
  if String.eqb sortBy "createdAt" then VTime (createdAt o)
  else if String.eqb sortBy "updatedAt" then VTime (updatedAt o)
  else if String.eqb sortBy "id" then VStr (id o)
  else if String.eqb sortBy "userId" then VStr (userId o)
  else if String.eqb sortBy "status" then VStr (status_name (status o))
  else if String.eqb sortBy "totalAmount" then VNum (totalAmount o)
  else if String.eqb sortBy "items" then VStr (items_toString (items o))
  else VOther.

Definition js_lt (a b : SortValue) : bool :=
  match a, b with
  | VTime x, VTime y => (x <? y)%Z
  | VStr x, VStr y => String.ltb x y
  | VNum x, VNum y => num_ltb x y
  | _, _ => false
  end.

Definition compareFn (sortBy : string) (sortOrder : Z) (a b : Order num) : Z :=
  let aVal := sort_value a sortBy in
  let bVal := sort_value b sortBy in
  if js_lt aVal bVal then (-1 * sortOrder)%Z
  else if js_lt bVal aVal then (1 * sortOrder)%Z
  else 0%Z.

(** [Array.prototype.sort(cmp)] is stable: [x] goes before the first
    element it does not have to follow. *)
Fixpoint sort_insert {A : Type} (cmp : A -> A -> Z) (x : A) (l : list A) : list A :=
  match l with
  | [] => [x]
  | y :: rest =>
      if (cmp x y <=? 0)%Z then x :: l else y :: sort_insert cmp x rest
  end.

Definition Array_sort {A : Type} (cmp : A -> A -> Z) (l : list A) : list A :=
  foldr (sort_insert cmp) [] l.

(** [Array.prototype.slice(start, end)] *)
Definition Array_slice {A : Type} (l : list A) (s e : Z) : list A :=
  let len := Z.of_nat (length l) in
  let k := if (s <? 0)%Z then Z.max (len + s) 0 else Z.min s len in
  let final := if (e <? 0)%Z then Z.max (len + e) 0 else Z.min e len in
  take (Z.to_nat (final - k)) (drop (Z.to_nat k) l).

(** [orders.filter(o => o.userId === req.userId || roles.includes('admin'))];
    [None] when the callback throws. *)
Fixpoint filter_visible (req : Request num) (l : list (Order num))
  : option (list (Order num)) :=
  match l with
  | [] => Some []
  | o :: rest =>
      keep ← (if String.eqb (userId o) (req_userId req) then Some true
              else includes (req_userRoles req) "admin");
      rest' ← filter_visible req rest;
      Some (if keep : bool then o :: rest' else rest')
  end.

(** [Math.ceil(total / limit)] for a positive [limit]. *)
Definition Math_ceil_div (total limit : Z) : Z := (- ((- total) / limit))%Z.

Definition effective_page (q : Query) : Z := Z.max 1 (parseInt_or (q_page q) 1).

Definition effective_limit (q : Query) : Z :=
  Z.min 100 (Z.max 1 (parseInt_or (q_limit q) 10)).

Definition effective_sortBy (q : Query) : string :=
  match q_sortBy q with
  | Some s => if String.eqb s "" then "createdAt" else s
  | None => "createdAt"
  end.

Definition effective_sortOrder (q : Query) : Z :=
  match q_sortOrder q with
  | Some s => if String.eqb s "asc" then 1%Z else (-1)%Z
  | None => (-1)%Z
  end.

(** The orders the caller may see, filtered by status when the parameter
    is one of the four statuses, and sorted. *)
Definition userOrders (orders : Store num) (req : Request num)
  : option (list (Order num)) :=
  visible ← filter_visible req (Map_values orders);
  let filtered :=
    match q_status (req_query req) ≫= status_enum with
    | Some st => filter (fun o => Status_eqb (status o) st = true) visible
    | None => visible
    end in
  Some (Array_sort (compareFn (effective_sortBy (req_query req))
                              (effective_sortOrder (req_query req))) filtered).

Definition paginate (l : list (Order num)) (page limit : Z)
  : list (Order num) * Pagination :=
  let total := Z.of_nat (length l) in
  let startIndex := ((page - 1) * limit)%Z in
  let endIndex := (startIndex + limit)%Z in
  (Array_slice l startIndex endIndex,
   mkPagination page limit total (Math_ceil_div total limit)
                (endIndex <? total)%Z (1 <? page)%Z).

(** Before it answers, the handler logs [isAdmin:
    req.userRoles.includes('admin')]: the role check is evaluated once more
    there, whatever the store holds, and throws on a role set that has no
    such method. *)
Definition listOrders (orders : Store num) (req : Request num)
  : Store num * Outcome num :=
  match userOrders orders req with
  | None => (orders, Thrown TypeError)
  | Some l =>
      let r := paginate l (effective_page (req_query req))
                          (effective_limit (req_query req)) in
      match includes (req_userRoles req) "admin" with
      | None => (orders, Thrown TypeError)
      | Some isAdmin =>
          (orders, Sent (mkResponse 200 (Success (DataList r.1 r.2))))
      end
  end.

(** *** A route: [authMiddleware], then the handler, then the error handler *)

Definition route (handler : Store num -> Request num -> Store num * Outcome num)
    (orders : Store num) (inc : Incoming num) : Store num * Response num :=
  match authMiddleware (in_headers inc) with
  | AuthSent r => (orders, r)
  | AuthThrown e => (orders, errorHandler e)
  | AuthNext uid roles =>
      let r := handler orders
                 (mkRequest uid roles (in_params_id inc) (in_body inc) (in_query inc)) in
      (r.1, express r.2)
  end.

End Service.

(** ** Vocabulary of the properties *)

Section Vocabulary.

Context {num : Type} {NUM : JSNumber num}.

Definition res_code (r : Response num) : option string :=
  match res_body r with
  | Failure e => Some (code e)
  | Success _ => None
  end.

(** The envelope carries [success: false]. *)
Definition is_error (r : Response num) : Prop :=
  match res_body r with
  | Failure _ => True
  | Success _ => False
  end.

(** The handler answers with status [st] and error code [c], and leaves
    the store as it was. *)
Definition fails_with (result : Store num * Outcome num) (orders : Store num)
    (st : Z) (c : string) : Prop :=
  result.1 = orders /\
  exists r, result.2 = Sent r /\ res_status r = st /\ res_code r = Some c.

(** The caller's subject is the order's [userId]. *)
Definition is_owner (order : Order num) (req : Request num) : Prop :=
  userId order = req_userId req.

(** The role check of the handlers answers yes, respectively no. *)
Definition holds_admin (req : Request num) : Prop :=
  includes (req_userRoles req) "admin" = Some true.

Definition lacks_admin (req : Request num) : Prop :=
  includes (req_userRoles req) "admin" = Some false.

(** The body of an update-status request names the target status [st]. *)
Definition targets (req : Request num) (st : Status) : Prop :=
  exists members,
    req_body req = JObj members /\
    obj_get members "status" = Some (JStr (status_name st)).

Definition absorbing (st : Status) : Prop := st = completed \/ st = cancelled.

(** The successful answer of a mutation and the store it leaves. *)
Definition updated (orders : Store num) (req : Request num) (order' : Order num)
  : Store num * Outcome num :=
  (Map_set orders (req_params_id req) order',
   Sent (mkResponse 200 (Success (DataOrder order')))).

(** A line item of a request body: an object whose [product], [quantity]
    and [price] members are those of [it]. *)
Definition item_json (it : Item num) (v : JValue num) : Prop :=
  exists members,
    v = JObj members /\
    obj_get members "product" = Some (JStr (product it)) /\
    obj_get members "quantity" = Some (JNum (quantity it)) /\
    obj_get members "price" = Some (JNum (price it)).

(** A product name of 1 to 200 characters, a positive integer quantity and
    a positive price. *)
Definition valid_item (it : Item num) : Prop :=
  (1 <= String.length (product it) <= 200)%nat /\
  num_isNaN (quantity it) = false /\
  num_isInteger (quantity it) = true /\
  num_ltb num_zero (quantity it) = true /\
  num_isNaN (price it) = false /\
  num_ltb num_zero (price it) = true.

(** Neither number of the line is [NaN]. *)
Definition numeric (it : Item num) : Prop :=
  num_isNaN (quantity it) = false /\ num_isNaN (price it) = false.

(** The body is an object whose [items] member is an array of 1 to 100
    valid line items, which are [its]. *)
Definition valid_body (body : JValue num) (its : list (Item num)) : Prop :=
  exists members l,
    body = JObj members /\
    obj_get members "items" = Some (JArr l) /\
    (1 <= length l <= 100)%nat /\
    Forall2 item_json its l /\
    Forall valid_item its.

(** The constraints of a line item at [path], each with the issue that
    reports its violation. *)
Inductive ItemViolation (path : list PathElem) (v : JValue num) : ZodIssue -> Prop :=
| bad_item :
    (forall members, v <> JObj members) ->
    ItemViolation path v
      (mkIssue (invalid_type zt_object (parsedType (Some v))) path ZodDefault)
| bad_product members :
    v = JObj members ->
    (forall s, obj_get members "product" <> Some (JStr s)) ->
    ItemViolation path v
      (mkIssue (invalid_type zt_string (parsedType (obj_get members "product")))
               (path ++ [Key "product"]) ZodDefault)
| empty_product members s :
    v = JObj members ->
    obj_get members "product" = Some (JStr s) ->
    (String.length s < 1)%nat ->
    ItemViolation path v
      (mkIssue (too_small zt_string 1 true) (path ++ [Key "product"])
               (Text "Название товара обязательно"))
| long_product members s :
    v = JObj members ->
    obj_get members "product" = Some (JStr s) ->
    (200 < String.length s)%nat ->
    ItemViolation path v
      (mkIssue (too_big zt_string 200 true) (path ++ [Key "product"]) ZodDefault)
| bad_quantity members :
    v = JObj members ->
    (forall n, obj_get members "quantity" = Some (JNum n) -> num_isNaN n = true) ->
    ItemViolation path v
      (mkIssue (invalid_type zt_number (parsedType (obj_get members "quantity")))
               (path ++ [Key "quantity"]) ZodDefault)
| fractional_quantity members n :
    v = JObj members ->
    obj_get members "quantity" = Some (JNum n) ->
    num_isNaN n = false ->
    num_isInteger n = false ->
    ItemViolation path v
      (mkIssue (invalid_type zt_integer zt_float) (path ++ [Key "quantity"]) ZodDefault)
| nonpositive_quantity members n :
    v = JObj members ->
    obj_get members "quantity" = Some (JNum n) ->
    num_isNaN n = false ->
    num_ltb num_zero n = false ->
    ItemViolation path v
      (mkIssue (too_small zt_number 0 false) (path ++ [Key "quantity"])
               (Text "Количество должно быть положительным числом"))
| bad_price members :
    v = JObj members ->
    (forall n, obj_get members "price" = Some (JNum n) -> num_isNaN n = true) ->
    ItemViolation path v
      (mkIssue (invalid_type zt_number (parsedType (obj_get members "price")))
               (path ++ [Key "price"]) ZodDefault)
| nonpositive_price members n :
    v = JObj members ->
    obj_get members "price" = Some (JNum n) ->
    num_isNaN n = false ->
    num_ltb num_zero n = false ->
    ItemViolation path v
      (mkIssue (too_small zt_number 0 false) (path ++ [Key "price"])
               (Text "Цена должна быть положительным числом")).

(** The constraints of a create-order body. *)
Inductive Violation (body : JValue num) : ZodIssue -> Prop :=
| bad_body :
    (forall members, body <> JObj members) ->
    Violation body
      (mkIssue (invalid_type zt_object (parsedType (Some body))) [] ZodDefault)
| bad_items members :
    body = JObj members ->
    (forall l, obj_get members "items" <> Some (JArr l)) ->
    Violation body
      (mkIssue (invalid_type zt_array (parsedType (obj_get members "items")))
               [Key "items"] ZodDefault)
| no_items members l :
    body = JObj members ->
    obj_get members "items" = Some (JArr l) ->
    (length l < 1)%nat ->
    Violation body
      (mkIssue (too_small zt_array 1 true) [Key "items"]
               (Text "Заказ должен содержать хотя бы один товар"))
| too_many_items members l :
    body = JObj members ->
    obj_get members "items" = Some (JArr l) ->
    (100 < length l)%nat ->
    Violation body
      (mkIssue (too_big zt_array 100 true) [Key "items"]
               (Text "Слишком много товаров в заказе"))
| in_item members l i v iss :
    body = JObj members ->
    obj_get members "items" = Some (JArr l) ->
    l !! i = Some v ->
    ItemViolation [Key "items"; Index i] v iss ->
    Violation body iss.

(** A status update or a cancellation, with the clock reading it uses. *)
Inductive Mutation :=
| StatusUpdate (now : Z) (req : Request num)
| Cancel (now : Z) (req : Request num).

Definition mutate (orders : Store num) (m : Mutation) : Store num :=
  match m with
  | StatusUpdate now req => (patchStatus now orders req).1
  | Cancel now req => (deleteOrder now orders req).1
  end.

Definition mutate_all (orders : Store num) (ms : list Mutation) : Store num :=
  fold_left mutate ms orders.

(** The orders a list request is about: those of the caller, or all of
    them for an admin, with the requested status if one is named. *)
Definition visible (req : Request num) (o : Order num) : bool :=
  String.eqb (userId o) (req_userId req)
  || default false (includes (req_userRoles req) "admin").

Definition matches_status (q : Query) (o : Order num) : bool :=
  match q_status q ≫= status_enum with
  | Some st => Status_eqb (status o) st
  | None => true
  end.

Definition selected (orders : Store num) (req : Request num) : list (Order num) :=
  List.filter (fun o => visible req o && matches_status (req_query req) o)
              (Map_values orders).

(** The page numbers on which the handler's arithmetic on doubles is the
    arithmetic of the integers: the end index [page * limit] does not pass
    [2^53].  (The page size is between 1 and 100 whatever is asked for.) *)
Definition exact_pages (q : Query) : Prop :=
  (effective_page q * effective_limit q <= 2 ^ 53)%Z.

(** What the query asks for: the integer [parseInt] reads, if any. *)
Definition requested (q : option string) : option Z := q ≫= parseInt.

Definition clamp (lo hi n : Z) : Z := Z.min hi (Z.max lo n).

(** The pages [1..n] of [l], each as the list service returns it. *)
Definition pages (l : list (Order num)) (limit : Z) (n : nat)
  : list (list (Order num)) :=
  map (fun p => (paginate l (Z.of_nat p) limit).1) (seq 1 n).

Definition sum_sizes (ps : list (list (Order num))) : Z :=
  foldr (fun p acc => (Z.of_nat (length p) + acc)%Z) 0%Z ps.

End Vocabulary.

(** ** The application over time, the health check, the gateway's guard *)

Section Application.

Context {num : Type} {NUM : JSNumber num}.

(** One request that reached a handler of the orders service, with the
    identifier and the clock readings the handler draws. *)
Inductive Call :=
| CallCreate (uuid : string) (now1 now2 : Z) (req : Request num)
| CallRead (req : Request num)
| CallList (req : Request num)
| CallUpdate (now : Z) (req : Request num)
| CallCancel (now : Z) (req : Request num).

Definition handle (orders : Store num) (c : Call) : Store num * Outcome num :=
  match c with
  | CallCreate uuid now1 now2 req => postOrders uuid now1 now2 orders req
  | CallRead req => getOrder orders req
  | CallList req => listOrders orders req
  | CallUpdate now req => patchStatus now orders req
  | CallCancel now req => deleteOrder now orders req
  end.

(** The store after the calls [cs], served one after the other (the
    handlers run to completion, none of them awaits). *)
Definition handle_all (orders : Store num) (cs : list Call) : Store num :=
  fold_left (fun s c => (handle s c).1) cs orders.

(** Every order sits under its own [id], and no key occurs twice. *)
Definition store_wf (orders : Store num) : Prop :=
  NoDup (map fst orders) /\ Forall (fun e => id e.2 = e.1) orders.

(** [orders.size] *)
Definition Map_size (orders : Store num) : Z := Z.of_nat (length orders).

(** The [data] of [GET /health]. *)
Record Health := mkHealth {
  h_service : string;
  h_status : string;
  h_timestamp : Z;
  h_ordersCount : Z
}.

Definition health (now : Z) (orders : Store num) : Health :=
  mkHealth "Orders Service" "healthy" now (Map_size orders).

(** The caller of a request is somebody else than [owner] and the role
    check answers no. *)
Definition outsider (owner : string) (req : Request num) : Prop :=
  req_userId req <> owner /\ lacks_admin req.

Definition mutation_request (m : @Mutation num) : Request num :=
  match m with
  | StatusUpdate _ req => req
  | Cancel _ req => req
  end.

(** The fields of an order that no status update and no cancellation
    writes. *)
Definition same_record (a b : Order num) : Prop :=
  id a = id b /\ userId a = userId b /\ items a = items b /\
  totalAmount a = totalAmount b /\ createdAt a = createdAt b.

(** The seven fields of an order. *)
Definition order_fields : list string :=
  ["id"; "userId"; "items"; "status"; "totalAmount"; "createdAt"; "updatedAt"].

(** The date a listing is sorted by, when it is sorted by a date. *)
Definition sort_date (sortBy : string) (o : Order num) : Z :=
  if String.eqb sortBy "updatedAt" then updatedAt o else createdAt o.

(** [a] may stand before [b] in a listing by date in the given direction
    ([1] ascending, [-1] descending). *)
Definition date_ordered (sortBy : string) (sortOrder : Z) (a b : Order num) : Prop :=
  if (sortOrder =? 1)%Z then (sort_date sortBy a <= sort_date sortBy b)%Z
  else (sort_date sortBy b <= sort_date sortBy a)%Z.

(** The places an issue of the create schema can point at in a body with
    [n] items. *)
Definition located (n : nat) (path : list PathElem) : Prop :=
  path = [] \/ path = [Key "items"] \/
  exists i, (i < n)%nat /\
    (path = [Key "items"; Index i] \/
     exists field, In field ["product"; "quantity"; "price"] /\
                   path = [Key "items"; Index i; Key field]).

Definition items_count (body : JValue num) : nat :=
  match body with
  | JObj members =>
      match obj_get members "items" with
      | Some (JArr l) => length l
      | _ => 0%nat
      end
  | _ => 0%nat
  end.

(** The handler answers, and with one of the status codes [codes]. *)
Definition answered (o : Outcome num) (codes : list Z) : Prop :=
  exists r, o = Sent r /\ In (res_status r) codes.

(** *** requireRole (API gateway) *)

(** [!!v]; a number is truthy when it is neither zero nor [NaN], that is
    when it lies on one side of zero. *)
Definition truthy (v : option (JValue num)) : bool :=
  match v with
  | None => false
  | Some JNull => false
  | Some (JBool b) => b
  | Some (JNum n) => num_ltb num_zero n || num_ltb n num_zero
  | Some (JStr s) => negb (String.eqb s "")
  | Some (JArr _) => true
  | Some (JObj _) => true
  end.

(** [v[key]] for a key that no prototype defines. *)
Definition get_property (v : JValue num) (key : string) : option (JValue num) :=
  match v with
  | JObj members => obj_get members key
  | _ => None
  end.

(** [roles.some(role => userRoles.includes(role))]; [None] when a call of
    [includes] throws. *)
Fixpoint some_includes (userRoles : JValue num) (roles : list string) : option bool :=
  match roles with
  | [] => Some false
  | role :: rest =>
      match includes userRoles role with
      | None => None
      | Some true => Some true
      | Some false => some_includes userRoles rest
      end
  end.

Inductive GuardResult :=
| GuardNext
| GuardSent (r : Response num)
| GuardThrown (e : Exception).

(** [requireRole(...roles)] applied to a request whose [req.user] is
    [user] (the decoded token, [None] when no token was verified). *)
Definition requireRole (roles : list string) (user : option (JValue num)) : GuardResult :=
  if negb (truthy user) || negb (truthy (user ≫= fun u => get_property u "roles")) then
    GuardSent (fail 403 "FORBIDDEN" (Text "Недостаточно прав"))
  else
    match some_includes (default JNull (user ≫= fun u => get_property u "roles")) roles with
    | None => GuardThrown TypeError
    | Some true => GuardNext
    | Some false =>
        GuardSent (fail 403 "FORBIDDEN"
                     (Text "Недостаточно прав для выполнения этой операции"))
    end.

End Application.

(** ** Sample data *)

Definition cement : Item Z := mkItem "Cement" 50%Z 350%Z.

Definition cement_json : JValue Z :=
  JObj [("product", JStr "Cement"); ("quantity", JNum 50%Z); ("price", JNum 350%Z)].

Definition cement_body : JValue Z := JObj [("items", JArr [cement_json])].

Definition no_query : Query := mkQuery None None None None None.

Definition status_body (s : string) : JValue Z := JObj [("status", JStr s)].

(** Order [o1] of user [A]. *)
Definition order_A (st : Status) : Order Z :=
  mkOrder "o1" "A" [cement] st 17500%Z 1000 1000.

Definition store_A (st : Status) : Store Z := [("o1", order_A st)].

Definition user_roles : JValue Z := JArr [JStr "user"].

Definition admin_roles : JValue Z := JArr [JStr "user"; JStr "admin"].

(** A request of subject [uid] with roles [roles] on order [oid]. *)
Definition request_of (uid : string) (roles : JValue Z) (oid : string)
    (body : JValue Z) : Request Z :=
  mkRequest uid roles oid body no_query.

(** Requests on order [o1] of user [A]: by [B], who is no admin. *)
Definition read_by_B : Request Z := request_of "B" user_roles "o1" JNull.

Definition read_by_A : Request Z := request_of "A" user_roles "o1" JNull.

(** [B] asks for a status that does not exist. *)
Definition shipped_by_B : Request Z :=
  request_of "B" user_roles "o1" (status_body "shipped").

(** [A] asks for a status that does not exist, on an order that does not
    exist either. *)
Definition shipped_unknown : Request Z :=
  request_of "A" user_roles "o2" (status_body "shipped").

Definition update_by_A (s : string) : Request Z :=
  request_of "A" user_roles "o1" (status_body s).

(** Identity headers: subject [uid], no roles header, no token. *)
Definition headers_of (uid : string) : Headers Z :=
  mkHeaders (Some uid) NoRoles None.

(** Subject [A] with a roles header that is not JSON (say, the bare word
    [admin]). *)
Definition malformed_roles : Headers Z :=
  mkHeaders (Some "A") (RolesText None) None.

Definition incoming (h : Headers Z) (oid : string) (body : JValue Z) : Incoming Z :=
  mkIncoming h oid body no_query.

Definition create_by_A : Request Z := request_of "A" user_roles "" cement_body.

(** What [create_by_A] stores when the identifier drawn is [o1]. *)
Definition cement_order : Order Z :=
  mkOrder "o1" "A" [cement] created 17500%Z 1000 1001.

(** The owner moves the order on, cancels it, and tries to reopen it. *)
Definition later_mutations : list (@Mutation Z) :=
  [StatusUpdate 2000 (update_by_A "in_progress");
   Cancel 3000 read_by_A;
   StatusUpdate 4000 (update_by_A "created")].

(** [?page=1&limit=0] *)
Definition zero_limit : Query := mkQuery (Some "1") (Some "0") None None None.

(** [?page=1&limit=10] *)
Definition first_ten : Query := mkQuery (Some "1") (Some "10") None None None.

(** Twenty-five orders of user [A], created one after the other. *)
Definition many_orders : Store Z :=
  map (fun i => let key := String (ascii_of_nat (65 + i)) "" in
                (key, mkOrder key "A" [cement] created 17500%Z
                              (1000 + Z.of_nat i) (1000 + Z.of_nat i)))
      (seq 0 25).

Definition list_by_A (q : Query) : Request Z := mkRequest "A" user_roles "" JNull q.

(** Order [o2] of user [B], stored after [o1]. *)
Definition order_B : Order Z :=
  mkOrder "o2" "B" [cement] created 17500%Z 1500 1500.

Definition mixed_store : Store Z := [("o1", order_A created); ("o2", order_B)].

(** [B], who is no admin, tries to complete and to cancel order [o1]. *)
Definition outsider_mutations : list (@Mutation Z) :=
  [StatusUpdate 2000 (request_of "B" user_roles "o1" (status_body "completed"));
   Cancel 3000 read_by_B].

(** [?sortBy=price]: orders have no such field. *)
Definition by_price : Query := mkQuery None None (Some "price") None None.

Definition list_by_admin (q : Query) : Request Z :=
  mkRequest "root" admin_roles "" JNull q.

(** A create request without items. *)
Definition create_nothing : Request Z :=
  request_of "A" user_roles "" (JObj [("items", JArr [])]).

(** [B] with the roles header [null], asking to complete order [o1]. *)
Definition null_roles_by_B : Request Z :=
  request_of "B" JNull "o1" (status_body "completed").

(** A verified token of an admin, as the gateway's guard sees it. *)
Definition admin_token : JValue Z :=
  JObj [("userId", JStr "root"); ("roles", JArr [JStr "admin"; JStr "user"])].

(** ** Properties *)

Section Lemmas.

Context {num : Type} {NUM : JSNumber num}.

Implicit Types (orders : Store num) (req : Request num) (order : Order num).

(** *** The store *)

Lemma Map_get_set_eq orders key order :
  Map_get (Map_set orders key order) key = Some order.
Proof.
  induction orders as [|[k o] rest IH]; simpl.
  - by rewrite String.eqb_refl.
  - destruct (String.eqb k key) eqn:E; simpl; rewrite E; [done | apply IH].
Qed.

Lemma Map_get_set_ne orders key key' order :
  key <> key' ->
  Map_get (Map_set orders key order) key' = Map_get orders key'.
Proof.
  intros Hne. induction orders as [|[k o] rest IH]; simpl.
  - destruct (String.eqb key key') eqn:E; [|done].
    apply String.eqb_eq in E. contradiction.
  - destruct (String.eqb k key) eqn:E; simpl.
    + apply String.eqb_eq in E. subst k.
      destruct (String.eqb key key') eqn:E'; [|done].
      apply String.eqb_eq in E'. contradiction.
    + destruct (String.eqb k key'); [done | apply IH].
Qed.

(** *** The role check *)

Lemma Status_eqb_eq (a b : Status) : Status_eqb a b = true <-> a = b.
Proof. destruct a, b; simpl; split; intros; congruence. Qed.

Lemma Status_eqb_neq (a b : Status) : Status_eqb a b = false <-> a <> b.
Proof. destruct a, b; simpl; split; intros; congruence. Qed.

Lemma access_denied_true order req :
  access_denied order req = Some true <-> ~ is_owner order req /\ lacks_admin req.
Proof.
  unfold access_denied, is_owner, lacks_admin.
  destruct (String.eqb (userId order) (req_userId req)) eqn:E.
  - apply String.eqb_eq in E. split; [discriminate | tauto].
  - apply String.eqb_neq in E.
    destruct (includes (req_userRoles req) "admin") as [[|]|]; simpl;
      split; intros; try discriminate; try tauto; destruct H; discriminate.
Qed.

Lemma access_denied_false order req :
  access_denied order req = Some false <-> is_owner order req \/ holds_admin req.
Proof.
  unfold access_denied, is_owner, holds_admin.
  destruct (String.eqb (userId order) (req_userId req)) eqn:E.
  - apply String.eqb_eq in E. tauto.
  - apply String.eqb_neq in E.
    destruct (includes (req_userRoles req) "admin") as [[|]|]; simpl;
      split; intros; try discriminate; try tauto;
      destruct H; try contradiction; discriminate.
Qed.

(** On an array of roles the check is membership of the label. *)
Lemma includes_array (l : list (JValue num)) (role : string) :
  includes (JArr l) role = Some true <-> In (JStr role) l.
Proof.
  simpl. split.
  - intros H. injection H as H. apply existsb_exists in H as [v [Hin Hv]].
    destruct v; simpl in Hv; try discriminate.
    apply String.eqb_eq in Hv. by subst.
  - intros H. f_equal. apply existsb_exists. exists (JStr role).
    split; [done | simpl; apply String.eqb_refl].
Qed.

(** *** The update-status schema *)

Lemma status_enum_name (st : Status) : status_enum (status_name st) = Some st.
Proof. by destruct st. Qed.

Lemma status_enum_inv (s : string) (st : Status) :
  status_enum s = Some st -> s = status_name st.
Proof.
  unfold status_enum. intros H.
  repeat match type of H with
  | (if String.eqb ?a ?b then _ else _) = _ =>
      let E := fresh "E" in
      destruct (String.eqb a b) eqn:E;
        [apply String.eqb_eq in E; injection H as <-; exact E |]
  end.
  discriminate.
Qed.

Lemma parse_targets req (st : Status) :
  parse (updateStatusSchema (req_body req)) = ParseOk st <-> targets req st.
Proof.
  unfold targets, updateStatusSchema. split.
  - destruct (req_body req) as [| | | | |members]; try discriminate.
    destruct (obj_get members "status") as [[| | |s| |]|] eqn:E; try discriminate.
    destruct (status_enum s) as [st'|] eqn:Es; try discriminate.
    simpl. intros [= <-]. exists members. split; [done|].
    rewrite E. by rewrite (status_enum_inv _ _ Es).
  - intros [members [-> ->]]. by rewrite status_enum_name.
Qed.

(** A body that names no status is answered with the validation error,
    whatever the store holds. *)
Lemma patch_invalid_body now orders req :
  (forall st, ~ targets req st) ->
  fails_with (patchStatus now orders req) orders 400 "VALIDATION_ERROR".
Proof.
  intros Hno. unfold patchStatus.
  destruct (parse (updateStatusSchema (req_body req))) as [st|errors] eqn:E.
  - apply parse_targets in E. by destruct (Hno st).
  - assert (errors <> []) as Hne.
    { revert E. unfold updateStatusSchema, parse.
      destruct (req_body req) as [| | | | |members]; try (intros [= <-]; done).
      destruct (obj_get members "status") as [[| | |s| |]|];
        try (intros [= <-]; done).
      destruct (status_enum s); [discriminate | intros [= <-]; done]. }
    destruct errors as [|first rest]; [done|].
    split; [done|]. eexists. split; [reflexivity|]. done.
Qed.

End Lemmas.

(** *** Ownership *)

(** C1, as stated, fails: an update-status request of a caller who is
    neither the owner nor an admin is answered with the validation error
    (400), not with Forbidden, when its body names no valid status, because
    the handler parses the body before it looks at the order. *)
Lemma forbidden_after_validation :
  Map_get (store_A created) (req_params_id shipped_by_B) = Some (order_A created) /\
  ~ is_owner (order_A created) shipped_by_B /\
  lacks_admin shipped_by_B /\
  fails_with (patchStatus 2000 (store_A created) shipped_by_B)
             (store_A created) 400 "VALIDATION_ERROR" /\
  ~ fails_with (patchStatus 2000 (store_A created) shipped_by_B)
               (store_A created) 403 "FORBIDDEN".
Proof.
  repeat split; try reflexivity.
  - unfold is_owner. simpl. discriminate.
  - eexists. split; [reflexivity|]. done.
  - intros [_ [r [Hr [Hst _]]]]. vm_compute in Hr.
    injection Hr as <-. discriminate.
Qed.

(** C1 (amended): for a stored order, a read, a cancel, or an update-status
    request that names a valid status fails with Forbidden (403) and leaves
    the store alone when the caller is neither the owner nor an admin; when
    the caller is the owner or an admin, the read returns the order, and the
    update and the cancel go on to the status check (they succeed or fail
    with a transition error). *)
Theorem ownership_enforced {num : Type} {NUM : JSNumber num}
    (orders : Store num) (req : Request num) (order : Order num) (now : Z) :
  Map_get orders (req_params_id req) = Some order ->
  (~ is_owner order req /\ lacks_admin req ->
     fails_with (getOrder orders req) orders 403 "FORBIDDEN" /\
     ((exists st, targets req st) ->
        fails_with (patchStatus now orders req) orders 403 "FORBIDDEN") /\
     fails_with (deleteOrder now orders req) orders 403 "FORBIDDEN") /\
  (is_owner order req \/ holds_admin req ->
     getOrder orders req =
       (orders, Sent (mkResponse 200 (Success (DataOrder order)))) /\
     ((exists st, targets req st) ->
        exists r, (patchStatus now orders req).2 = Sent r /\
          (res_code r = None \/ res_code r = Some "INVALID_STATUS_TRANSITION")) /\
     (exists r, (deleteOrder now orders req).2 = Sent r /\
        (res_code r = None \/
         res_code r = Some "CANNOT_CANCEL_COMPLETED" \/
         res_code r = Some "ALREADY_CANCELLED"))).
Proof.
  intros Hget. split.
  - intros Hden. apply access_denied_true in Hden.
    unfold getOrder, patchStatus, deleteOrder. rewrite Hget, Hden.
    repeat split; try (eexists; split; [reflexivity | done]).
    + destruct H as [st Hst]. apply parse_targets in Hst. by rewrite Hst.
    + destruct H as [st Hst]. apply parse_targets in Hst. rewrite Hst.
      eexists; split; [reflexivity | done].
  - intros Hok. apply access_denied_false in Hok.
    unfold getOrder, patchStatus, deleteOrder. rewrite Hget, Hok.
    split; [done|]. split.
    + intros [st Hst]. apply parse_targets in Hst. rewrite Hst.
      destruct (Status_eqb (status order) completed && negb (Status_eqb st completed));
        [eexists; split; [reflexivity | by right]|].
      destruct (Status_eqb (status order) cancelled && negb (Status_eqb st cancelled));
        eexists; (split; [reflexivity|]); [by right | by left].
    + destruct (Status_eqb (status order) completed);
        [eexists; split; [reflexivity | by right; left]|].
      destruct (Status_eqb (status order) cancelled);
        eexists; (split; [reflexivity|]); [by right; right | by left].
Qed.

Lemma ownership_enforced_witness :
  fails_with (getOrder (store_A created) read_by_B) (store_A created) 403 "FORBIDDEN" /\
  getOrder (store_A created) read_by_A =
    (store_A created, Sent (mkResponse 200 (Success (DataOrder (order_A created))))).
Proof.
  split.
  - apply (ownership_enforced (store_A created) read_by_B (order_A created) 2000).
    + reflexivity.
    + split; [unfold is_owner; simpl; discriminate | reflexivity].
  - apply (ownership_enforced (store_A created) read_by_A (order_A created) 2000).
    + reflexivity.
    + left. reflexivity.
Defined.

(** *** The status state machine *)

(** C2: for a stored order and an authorised caller (owner or admin), an
    update-status request that targets a status other than the current one
    fails with INVALID_STATUS_TRANSITION and leaves the store unchanged when
    the current status is completed or cancelled; a request that targets the
    current status, or any of the four statuses from created or in_progress,
    succeeds and sets the status. *)
Theorem absorbing_statuses {num : Type} {NUM : JSNumber num}
    (orders : Store num) (req : Request num) (order : Order num)
    (now : Z) (target : Status) :
  Map_get orders (req_params_id req) = Some order ->
  is_owner order req \/ holds_admin req ->
  targets req target ->
  (absorbing (status order) -> target <> status order ->
     fails_with (patchStatus now orders req) orders 400 "INVALID_STATUS_TRANSITION") /\
  (target = status order \/ ~ absorbing (status order) ->
     patchStatus now orders req = updated orders req (set_status order target now) /\
     status (set_status order target now) = target).
Proof.
  intros Hget Hok Htarget.
  apply access_denied_false in Hok. apply parse_targets in Htarget.
  unfold patchStatus, updated. rewrite Htarget, Hget, Hok.
  split.
  - intros [Hst | Hst] Hne; rewrite Hst in *.
    + apply not_eq_sym, Status_eqb_neq in Hne. simpl.
      replace (Status_eqb target completed) with false
        by (destruct target; simpl in *; congruence). simpl.
      split; [done|]. eexists. split; [reflexivity | done].
    + apply not_eq_sym, Status_eqb_neq in Hne. simpl.
      replace (Status_eqb target cancelled) with false
        by (destruct target; simpl in *; congruence). simpl.
      split; [done|]. eexists. split; [reflexivity | done].
  - intros Hcase. split; [|done].
    assert (Status_eqb (status order) completed
            && negb (Status_eqb target completed) = false) as ->.
    { destruct Hcase as [-> | Hna].
      - by destruct (status order).
      - destruct (status order); try done. destruct Hna. by left. }
    assert (Status_eqb (status order) cancelled
            && negb (Status_eqb target cancelled) = false) as ->.
    { destruct Hcase as [-> | Hna].
      - by destruct (status order).
      - destruct (status order); try done. destruct Hna. by right. }
    done.
Qed.

Lemma absorbing_statuses_witness :
  fails_with (patchStatus 2000 (store_A cancelled) (update_by_A "in_progress"))
             (store_A cancelled) 400 "INVALID_STATUS_TRANSITION".
Proof.
  apply (absorbing_statuses (store_A cancelled) (update_by_A "in_progress")
           (order_A cancelled) 2000 in_progress).
  - reflexivity.
  - left. reflexivity.
  - exists [("status", JStr "in_progress")]. split; reflexivity.
  - right. reflexivity.
  - discriminate.
Defined.

(** *** Resolution by identifier *)

(** C4, as stated, fails: an update-status request for an identifier that
    is not in the store is answered with the validation error when its body
    names no valid status; the body is parsed before the lookup. *)
Lemma validation_before_lookup :
  Map_get (store_A created) (req_params_id shipped_unknown) = None /\
  fails_with (patchStatus 2000 (store_A created) shipped_unknown)
             (store_A created) 400 "VALIDATION_ERROR" /\
  ~ fails_with (patchStatus 2000 (store_A created) shipped_unknown)
               (store_A created) 404 "ORDER_NOT_FOUND".
Proof.
  repeat split; try reflexivity.
  - eexists. split; [reflexivity | done].
  - intros [_ [r [Hr [Hst _]]]]. vm_compute in Hr.
    injection Hr as <-. discriminate.
Qed.

(** C4 (amended): when the identifier is not in the store, a read and a
    cancel fail with ORDER_NOT_FOUND (404) whoever the caller is, and so does
    an update-status request whose body names a valid status; an
    update-status request whose body names none fails with the validation
    error (400) first. *)
Theorem not_found_first {num : Type} {NUM : JSNumber num}
    (orders : Store num) (req : Request num) (now : Z) :
  Map_get orders (req_params_id req) = None ->
  fails_with (getOrder orders req) orders 404 "ORDER_NOT_FOUND" /\
  fails_with (deleteOrder now orders req) orders 404 "ORDER_NOT_FOUND" /\
  ((exists st, targets req st) ->
     fails_with (patchStatus now orders req) orders 404 "ORDER_NOT_FOUND") /\
  ((forall st, ~ targets req st) ->
     fails_with (patchStatus now orders req) orders 400 "VALIDATION_ERROR").
Proof.
  intros Hget. unfold getOrder, deleteOrder. rewrite Hget.
  repeat split; try (eexists; split; [reflexivity | done]).
  - destruct H as [st Hst]. apply parse_targets in Hst.
    unfold patchStatus. by rewrite Hst, Hget.
  - destruct H as [st Hst]. apply parse_targets in Hst.
    unfold patchStatus. rewrite Hst, Hget.
    eexists; split; [reflexivity | done].
  - by apply patch_invalid_body.
  - by apply patch_invalid_body.
Qed.

Lemma not_found_first_witness :
  fails_with (deleteOrder 2000 (store_A created) shipped_unknown)
             (store_A created) 404 "ORDER_NOT_FOUND".
Proof.
  apply (not_found_first (store_A created) shipped_unknown 2000).
  reflexivity.
Defined.

(** *** Cancellation *)

(** C6: for a stored order and an authorised caller, a cancel request fails
    with CANNOT_CANCEL_COMPLETED on a completed order and with
    ALREADY_CANCELLED on a cancelled one, the store staying as it was;
    otherwise it succeeds, and the order found in the store under that
    identifier afterwards is the order with status cancelled (and the time
    of the request as [updatedAt]), which is also the order of the answer;
    neither code is the one with which an update-status request fails on the
    same order. *)
Theorem cancel_outcomes {num : Type} {NUM : JSNumber num}
    (orders : Store num) (req : Request num) (order : Order num) (now : Z) :
  Map_get orders (req_params_id req) = Some order ->
  is_owner order req \/ holds_admin req ->
  (status order = completed ->
     fails_with (deleteOrder now orders req) orders 400 "CANNOT_CANCEL_COMPLETED") /\
  (status order = cancelled ->
     fails_with (deleteOrder now orders req) orders 400 "ALREADY_CANCELLED") /\
  (~ absorbing (status order) ->
     Map_get (deleteOrder now orders req).1 (req_params_id req) =
       Some (set_status order cancelled now) /\
     (deleteOrder now orders req).2 =
       Sent (mkResponse 200 (Success (DataOrder (set_status order cancelled now)))) /\
     status (set_status order cancelled now) = cancelled /\
     deleteOrder now orders req = updated orders req (set_status order cancelled now)) /\
  (forall target r r',
     targets req target ->
     (patchStatus now orders req).2 = Sent r -> is_error r ->
     (deleteOrder now orders req).2 = Sent r' -> is_error r' ->
     res_code r = Some "INVALID_STATUS_TRANSITION" /\ res_code r' <> res_code r).
Proof.
  intros Hget Hok. pose proof Hok as Hacc. apply access_denied_false in Hacc.
  split; [|split; [|split]].
  - intros Hs. unfold deleteOrder. rewrite Hget, Hacc, Hs. simpl.
    split; [done|]. eexists. split; [reflexivity | done].
  - intros Hs. unfold deleteOrder. rewrite Hget, Hacc, Hs. simpl.
    split; [done|]. eexists. split; [reflexivity | done].
  - intros Hna.
    assert (deleteOrder now orders req =
            updated orders req (set_status order cancelled now)) as Hd.
    { unfold deleteOrder, updated. rewrite Hget, Hacc.
      destruct (status order); simpl; try done; destruct Hna; [by left | by right]. }
    rewrite Hd. unfold updated. cbn [fst snd].
    split; [apply Map_get_set_eq|]. done.
  - intros target r r' Htarget. apply parse_targets in Htarget.
    unfold patchStatus, deleteOrder. rewrite Htarget, Hget, Hacc.
    destruct (status order), target; simpl;
      intros [= <-] Hr [= <-] Hr'; simpl in *; try done.
Qed.

Lemma cancel_outcomes_witness :
  fails_with (deleteOrder 2000 (store_A completed) read_by_A)
             (store_A completed) 400 "CANNOT_CANCEL_COMPLETED" /\
  Map_get (deleteOrder 2000 (store_A created) read_by_A).1 "o1" =
    Some (set_status (order_A created) cancelled 2000).
Proof.
  split.
  - apply (cancel_outcomes (store_A completed) read_by_A (order_A completed) 2000).
    + reflexivity.
    + left. reflexivity.
    + reflexivity.
  - apply (cancel_outcomes (store_A created) read_by_A (order_A created) 2000).
    + reflexivity.
    + left. reflexivity.
    + intros [H | H]; discriminate.
Defined.

(** *** Failed mutations *)

Lemma patchStatus_error_keeps {num : Type} {NUM : JSNumber num}
    (orders : Store num) (req : Request num) (now : Z) :
  is_error (express (patchStatus now orders req).2) ->
  (patchStatus now orders req).1 = orders.
Proof.
  unfold patchStatus.
  destruct (parse (updateStatusSchema (req_body req))); [|done].
  destruct (Map_get orders (req_params_id req)); [|done].
  destruct (access_denied _ req) as [[|]|]; try done.
  destruct (_ && _); [done|]. destruct (_ && _); [done|].
  simpl. intros [].
Qed.

Lemma deleteOrder_error_keeps {num : Type} {NUM : JSNumber num}
    (orders : Store num) (req : Request num) (now : Z) :
  is_error (express (deleteOrder now orders req).2) ->
  (deleteOrder now orders req).1 = orders.
Proof.
  unfold deleteOrder.
  destruct (Map_get orders (req_params_id req)); [|done].
  destruct (access_denied _ req) as [[|]|]; try done.
  destruct (Status_eqb _ completed); [done|].
  destruct (Status_eqb _ cancelled); [done|].
  simpl. intros [].
Qed.

Lemma route_error_keeps {num : Type} {NUM : JSNumber num}
    (handler : Store num -> Request num -> Store num * Outcome num)
    (orders : Store num) (inc : Incoming num) :
  (forall req, is_error (express (handler orders req).2) ->
               (handler orders req).1 = orders) ->
  is_error (route handler orders inc).2 ->
  (route handler orders inc).1 = orders.
Proof.
  intros Hh. unfold route.
  destruct (authMiddleware (in_headers inc)); simpl; auto.
Qed.

(** C9: an update-status or cancel request that is answered with an error
    (an envelope with [success: false], whatever its code) leaves the order
    store exactly as it was. *)
Theorem failed_mutation_keeps_store {num : Type} {NUM : JSNumber num}
    (orders : Store num) (inc : Incoming num) (now : Z) :
  (is_error (route (patchStatus now) orders inc).2 ->
     (route (patchStatus now) orders inc).1 = orders) /\
  (is_error (route (deleteOrder now) orders inc).2 ->
     (route (deleteOrder now) orders inc).1 = orders).
Proof.
  split; apply route_error_keeps; intros req.
  - apply patchStatus_error_keeps.
  - apply deleteOrder_error_keeps.
Qed.

Lemma failed_mutation_keeps_store_witness :
  is_error (route (deleteOrder 2000) (store_A created)
              (incoming (headers_of "B") "o1" JNull)).2 /\
  (route (deleteOrder 2000) (store_A created)
     (incoming (headers_of "B") "o1" JNull)).1 = store_A created.
Proof.
  split.
  - exact I.
  - apply (failed_mutation_keeps_store (store_A created)
             (incoming (headers_of "B") "o1" JNull) 2000).
    exact I.
Defined.

(** *** Authentication *)

(** C10, as stated, fails: a request with a non-empty [x-user-id] whose
    roles header is not JSON does not pass; [JSON.parse] throws in the
    middleware and the request is answered with 500. *)
Lemma malformed_roles_do_not_pass :
  x_user_id malformed_roles = Some "A" /\
  "A" <> "" /\
  authMiddleware malformed_roles = AuthThrown SyntaxError /\
  (forall roles, authMiddleware malformed_roles <> AuthNext "A" roles) /\
  route getOrder (store_A created) (incoming malformed_roles "o1" JNull) =
    (store_A created, internal_error).
Proof. repeat split; done. Qed.

(** No handler answers 401 itself. *)
Lemma handlers_never_401 {num : Type} {NUM : JSNumber num}
    (orders : Store num) (req : Request num) (uuid : string) (now now' : Z) :
  res_status (express (getOrder orders req).2) <> 401%Z /\
  res_status (express (listOrders orders req).2) <> 401%Z /\
  res_status (express (patchStatus now orders req).2) <> 401%Z /\
  res_status (express (deleteOrder now orders req).2) <> 401%Z /\
  res_status (express (postOrders uuid now now' orders req).2) <> 401%Z.
Proof.
  unfold getOrder, listOrders, patchStatus, deleteOrder, postOrders.
  repeat split.
  - destruct (Map_get _ _); [|done]. by destruct (access_denied _ _) as [[|]|].
  - destruct (userOrders _ _); [|done]. by destruct (includes _ _).
  - destruct (parse (updateStatusSchema _)) as [st|[|e es]]; try done.
    destruct (Map_get _ _); [|done]. destruct (access_denied _ _) as [[|]|]; try done.
    destruct (_ && _); [done|]. by destruct (_ && _).
  - destruct (Map_get _ _); [|done]. destruct (access_denied _ _) as [[|]|]; try done.
    destruct (Status_eqb _ completed); [done|]. by destruct (Status_eqb _ cancelled).
  - by destruct (parse (createOrderSchema _)) as [its|[|e es]].
Qed.

(** C10 (amended): the middleware answers 401 exactly when [x-user-id] is
    absent or empty, and no route answers 401 otherwise; a request with a
    non-empty [x-user-id] passes, with an empty role set (hence no admin)
    when there is no roles header and with the parsed value when the roles
    header is JSON; no token is looked at. *)
Theorem auth_by_user_id {num : Type} {NUM : JSNumber num} (h : Headers num) :
  (falsy_header (x_user_id h) = true <->
     authMiddleware h = AuthSent (fail 401 "UNAUTHORIZED" (Text "Не авторизован"))) /\
  (forall r, authMiddleware h = AuthSent r ->
     res_status r = 401%Z /\ falsy_header (x_user_id h) = true) /\
  (forall uid, x_user_id h = Some uid -> uid <> "" ->
     (x_user_roles h = NoRoles ->
        authMiddleware h = AuthNext uid (JArr []) /\
        includes (JArr [] : JValue num) "admin" = Some false) /\
     (forall v, x_user_roles h = RolesText (Some v) ->
        authMiddleware h = AuthNext uid v)) /\
  (forall token,
     authMiddleware (mkHeaders (x_user_id h) (x_user_roles h) token) =
     authMiddleware h) /\
  (forall handler orders oid body query uuid now now',
     In handler [getOrder; listOrders; patchStatus now; deleteOrder now;
                 postOrders uuid now now'] ->
     (res_status (route handler orders (mkIncoming h oid body query)).2 = 401%Z <->
      falsy_header (x_user_id h) = true)).
Proof.
  assert (falsy_header (x_user_id h) = true <->
          authMiddleware h = AuthSent (fail 401 "UNAUTHORIZED" (Text "Не авторизован")))
    as Hfalsy.
  { unfold authMiddleware, falsy_header.
    destruct (x_user_id h) as [uid|]; [|done].
    destruct (String.eqb uid ""); [done|].
    split; [done | destruct (x_user_roles h) as [|[v|]]; discriminate]. }
  split; [exact Hfalsy|]. split; [|split; [|split]].
  - intros r Hr. unfold authMiddleware, falsy_header in *.
    destruct (x_user_id h) as [uid|]; [|by injection Hr as <-].
    destruct (String.eqb uid ""); [by injection Hr as <-|].
    by destruct (x_user_roles h) as [|[v|]].
  - intros uid Hu Hne. unfold authMiddleware. rewrite Hu.
    apply String.eqb_neq in Hne. rewrite Hne. split.
    + by intros ->.
    + by intros v ->.
  - done.
  - intros handler orders oid body query uuid now now' Hin.
    unfold route. cbn [in_headers in_params_id in_body in_query].
    destruct (authMiddleware h) as [uid roles|r|e] eqn:Ha.
    + assert (falsy_header (x_user_id h) <> true) as Hnf.
      { intros Hf. apply Hfalsy in Hf. congruence. }
      cbn [snd]. split; [|by intros ?].
      pose proof (handlers_never_401 orders
                    (mkRequest uid roles oid body query) uuid now now')
        as [H1 [H2 [H3 [H4 H5]]]].
      simpl in Hin.
      destruct Hin as [<-|[<-|[<-|[<-|[<-|[]]]]]]; intros ?; contradiction.
    + unfold authMiddleware, falsy_header in *.
      destruct (x_user_id h) as [uid|]; [|by injection Ha as <-].
      destruct (String.eqb uid ""); [by injection Ha as <-|].
      destruct (x_user_roles h) as [|[v|]]; discriminate.
    + unfold authMiddleware, falsy_header in *.
      destruct (x_user_id h) as [uid|]; [|discriminate].
      destruct (String.eqb uid ""); [discriminate|]. done.
Qed.

Lemma auth_by_user_id_witness :
  authMiddleware (headers_of "A") = AuthNext "A" (JArr []) /\
  includes (JArr [] : JValue Z) "admin" = Some false.
Proof.
  destruct (auth_by_user_id (headers_of "A")) as [_ [_ [H _]]].
  apply (H "A"); [reflexivity | discriminate | reflexivity].
Defined.

(** *** The create-order schema *)

Section Validation.

Context {num : Type} {NUM : JSNumber num}.

Lemma issue_if_in (b : bool) (i iss : ZodIssue) :
  In iss (issue_if b i) <-> b = true /\ iss = i.
Proof.
  destruct b; simpl; split; intros H; try tauto.
  - destruct H as [<-|[]]. done.
  - destruct H as [_ ->]. by left.
  - destruct H. discriminate.
Qed.

Ltac zify_checks :=
  repeat match goal with
  | H : (_ <? _)%Z = true |- _ => apply Z.ltb_lt in H
  | H : (_ <? _)%Z = false |- _ => apply Z.ltb_ge in H
  | H : negb _ = true |- _ => apply negb_true_iff in H
  | |- (_ <? _)%Z = true => apply Z.ltb_lt
  | |- negb _ = true => apply negb_true_iff
  end.

Lemma item_violation_listed path (v : JValue num) iss :
  ItemViolation path v iss -> In iss (item_schema path (Some v)).1.
Proof.
  intros H. destruct H; subst; simpl.
  - destruct v; try (by left). by destruct (H members).
  - rewrite in_app_iff. left. unfold product_schema.
    destruct (obj_get members "product") as [[| | |s| |]|]; simpl; auto.
    by destruct (H0 s).
  - rewrite in_app_iff. left. unfold product_schema. rewrite H0. simpl.
    rewrite in_app_iff. left. apply issue_if_in. split; [|done]. zify_checks. lia.
  - rewrite in_app_iff. left. unfold product_schema. rewrite H0. simpl.
    rewrite in_app_iff. right. apply issue_if_in. split; [|done]. zify_checks. lia.
  - rewrite !in_app_iff. right. left. unfold quantity_schema.
    destruct (obj_get members "quantity") as [[| |n| | |]|] eqn:E; simpl; auto.
    rewrite (H0 n eq_refl). simpl. by left.
  - rewrite !in_app_iff. right. left. unfold quantity_schema. rewrite H0, H1. simpl.
    rewrite in_app_iff. left. apply issue_if_in. by rewrite H2.
  - rewrite !in_app_iff. right. left. unfold quantity_schema. rewrite H0, H1. simpl.
    rewrite in_app_iff. right. apply issue_if_in. by rewrite H2.
  - rewrite !in_app_iff. right. right. unfold price_schema.
    destruct (obj_get members "price") as [[| |n| | |]|] eqn:E; simpl; auto.
    rewrite (H0 n eq_refl). simpl. by left.
  - rewrite !in_app_iff. right. right. unfold price_schema. rewrite H0, H1. simpl.
    apply issue_if_in. by rewrite H2.
Qed.

Lemma listed_item_violation path (v : JValue num) iss :
  In iss (item_schema path (Some v)).1 -> ItemViolation path v iss.
Proof.
  destruct v as [| | | | |members]; simpl;
    try (intros [<-|[]]; refine (bad_item path _ _); intros; discriminate).
  rewrite !in_app_iff. intros [Hp | [Hq | Hc]].
  - unfold product_schema in Hp.
    destruct (obj_get members "product") as [[| | |s| |]|] eqn:E; cbn [fst In] in Hp;
      try (destruct Hp as [<-|[]]; rewrite <- E;
           apply (bad_product _ _ members); [done | rewrite E; congruence]).
    apply in_app_iff in Hp as [Hp | Hp]; apply issue_if_in in Hp as [Hb ->]; zify_checks.
    + apply (empty_product _ _ members s); [done | done | lia].
    + apply (long_product _ _ members s); [done | done | lia].
  - unfold quantity_schema in Hq.
    destruct (obj_get members "quantity") as [[| |n| | |]|] eqn:E; cbn [fst In] in Hq;
      try (destruct Hq as [<-|[]]; rewrite <- E;
           apply (bad_quantity _ _ members); [done | rewrite E; congruence]).
    destruct (num_isNaN n) eqn:En; cbn [fst In] in Hq.
    + destruct Hq as [<-|[]].
      replace zt_nan with (parsedType (obj_get members "quantity"))
        by (rewrite E; simpl; by rewrite En).
      apply (bad_quantity _ _ members); [done | rewrite E; congruence].
    + apply in_app_iff in Hq as [Hq | Hq]; apply issue_if_in in Hq as [Hb ->]; zify_checks.
      * by apply (fractional_quantity _ _ members n).
      * by apply (nonpositive_quantity _ _ members n).
  - unfold price_schema in Hc.
    destruct (obj_get members "price") as [[| |n| | |]|] eqn:E; cbn [fst In] in Hc;
      try (destruct Hc as [<-|[]]; rewrite <- E;
           apply (bad_price _ _ members); [done | rewrite E; congruence]).
    destruct (num_isNaN n) eqn:En; cbn [fst In] in Hc.
    + destruct Hc as [<-|[]].
      replace zt_nan with (parsedType (obj_get members "price"))
        by (rewrite E; simpl; by rewrite En).
      apply (bad_price _ _ members); [done | rewrite E; congruence].
    + apply issue_if_in in Hc as [Hb ->]; zify_checks.
      by apply (nonpositive_price _ _ members n).
Qed.

Lemma item_value path (v : JValue num) it :
  (item_schema path (Some v)).2 = Some it <-> item_json it v /\ numeric it.
Proof.
  unfold item_json, numeric. split.
  - destruct v as [| | | | |members]; simpl; try discriminate.
    unfold product_schema, quantity_schema, price_schema.
    destruct (obj_get members "product") as [[| | |s| |]|] eqn:Ep; simpl; try discriminate.
    destruct (obj_get members "quantity") as [[| |q| | |]|] eqn:Eq'; simpl; try discriminate.
    destruct (num_isNaN q) eqn:Eq; simpl; try discriminate.
    destruct (obj_get members "price") as [[| |c| | |]|] eqn:Ec'; simpl; try discriminate.
    destruct (num_isNaN c) eqn:Ec; simpl; try discriminate.
    intros [= <-]. simpl. eauto 10.
  - intros [[members [-> [Hp [Hq Hc]]]] [Hnq Hnc]]. simpl.
    rewrite Hp, Hq, Hc. unfold product_schema, quantity_schema, price_schema.
    rewrite Hnq, Hnc. simpl. by destruct it.
Qed.

Lemma item_total path (v : JValue num) :
  (item_schema path (Some v)).1 = [] -> exists it, (item_schema path (Some v)).2 = Some it.
Proof.
  destruct v as [| | | | |members]; simpl; try discriminate.
  unfold product_schema, quantity_schema, price_schema.
  destruct (obj_get members "product") as [[| | |s| |]|]; simpl; try discriminate.
  destruct (obj_get members "quantity") as [[| |q| | |]|]; simpl;
    try (intros H; apply app_eq_nil in H as [_ H]; discriminate).
  destruct (num_isNaN q);
    try (intros H; apply app_eq_nil in H as [_ H]; discriminate).
  destruct (obj_get members "price") as [[| |c| | |]|]; simpl;
    try (intros H; apply app_eq_nil in H as [_ H];
         apply app_eq_nil in H as [_ H]; discriminate).
  destruct (num_isNaN c);
    try (intros H; apply app_eq_nil in H as [_ H];
         apply app_eq_nil in H as [_ H]; discriminate).
  eauto.
Qed.

Lemma issue_if_nil (b : bool) (i : ZodIssue) : issue_if b i = [] <-> b = false.
Proof. destruct b; simpl; split; congruence. Qed.

Lemma item_clean path (v : JValue num) it :
  (item_schema path (Some v)).2 = Some it ->
  ((item_schema path (Some v)).1 = [] <-> valid_item it).
Proof.
  intros Hv. apply item_value in Hv as [[members [-> [Hp [Hq Hc]]]] [Hnq Hnc]].
  simpl. rewrite Hp, Hq, Hc. unfold product_schema, quantity_schema, price_schema.
  rewrite Hnq, Hnc. cbn [fst]. unfold valid_item.
  rewrite !app_nil, !issue_if_nil, !negb_false_iff, !Z.ltb_ge.
  split.
  - intros [[H1 H2] [[H3 H4] H5]]. repeat split; try done; lia.
  - intros [[H1 H2] [_ [H3 [H4 [_ H5]]]]]. repeat split; try done; lia.
Qed.

Lemma elements_listed path i (l : list (JValue num)) iss :
  In iss (elements_schema path i l).1 <->
  exists j v, l !! j = Some v /\
              In iss (item_schema (path ++ [Index (i + j)]) (Some v)).1.
Proof.
  revert i. induction l as [|x rest IH]; intros i; simpl.
  - split; [done | by intros [j [v [? _]]]].
  - rewrite in_app_iff, IH. split.
    + intros [H | [j [v [Hj H]]]].
      * exists 0%nat, x. by rewrite Nat.add_0_r.
      * exists (S j), v. by rewrite Nat.add_succ_r.
    + intros [[|j] [v [Hj H]]]; simpl in Hj.
      * injection Hj as <-. left. by rewrite Nat.add_0_r in H.
      * right. exists j, v. by rewrite Nat.add_succ_r in H.
Qed.

Lemma elements_value path i (l : list (JValue num)) its :
  (elements_schema path i l).2 = Some its <->
  Forall2 item_json its l /\ Forall numeric its.
Proof.
  revert i its. induction l as [|x rest IH]; intros i its; cbn [elements_schema fst snd].
  - split.
    + intros [= <-]. split; constructor.
    + intros [H _]. by inversion H.
  - split.
    + destruct (item_schema (path ++ [Index i]) (Some x)).2 as [it|] eqn:Ei; simpl; [|done].
      destruct (elements_schema path (S i) rest).2 as [its'|] eqn:Er; simpl; [|done].
      intros [= <-]. apply item_value in Ei as [? ?]. apply IH in Er as [? ?].
      split; by constructor.
    + intros [H2 Hn]. inversion H2 as [|it v its' rest' Hit Hrest]; subst.
      inversion Hn as [|? ? Hnit Hnrest]; subst.
      rewrite (proj2 (item_value (path ++ [Index i]) x it) (conj Hit Hnit)). simpl.
      by rewrite (proj2 (IH (S i) its') (conj Hrest Hnrest)).
Qed.

Lemma elements_total path i (l : list (JValue num)) :
  (elements_schema path i l).1 = [] ->
  exists its, (elements_schema path i l).2 = Some its.
Proof.
  revert i. induction l as [|x rest IH]; intros i; cbn [elements_schema fst snd]; [eauto|].
  intros H. apply app_nil in H as [Hx Hr].
  apply item_total in Hx as [it ->]. apply IH in Hr as [its ->].
  simpl. eauto.
Qed.

Lemma elements_clean path i (l : list (JValue num)) its :
  (elements_schema path i l).2 = Some its ->
  ((elements_schema path i l).1 = [] <-> Forall valid_item its).
Proof.
  revert i its. induction l as [|x rest IH]; intros i its; cbn [elements_schema fst snd].
  - intros [= <-]. split; [constructor | done].
  - destruct (item_schema (path ++ [Index i]) (Some x)).2 as [it|] eqn:Ei; simpl; [|done].
    destruct (elements_schema path (S i) rest).2 as [its'|] eqn:Er; simpl; [|done].
    intros [= <-]. rewrite app_nil, Forall_cons.
    by rewrite (item_clean _ _ _ Ei), (IH _ _ Er).
Qed.

Lemma valid_item_numeric (it : Item num) : valid_item it -> numeric it.
Proof. unfold valid_item, numeric. tauto. Qed.

(** The schema accepts exactly the valid bodies. *)
Lemma createOrderSchema_accepts (body : JValue num) its :
  parse (createOrderSchema body) = ParseOk its <-> valid_body body its.
Proof.
  unfold valid_body. split.
  - destruct body as [| | | | |members]; try discriminate. simpl.
    destruct (obj_get members "items") as [[| | | |l|]|] eqn:Ei; try discriminate.
    cbn [items_schema]. unfold parse.
    destruct (_ ++ _ ++ _) as [|i0 rest] eqn:Eiss; [|discriminate].
    destruct (elements_schema [Key "items"] 0 l).2 as [its'|] eqn:Ev; [|discriminate].
    intros [= <-]. apply app_nil in Eiss as [H1 H]. apply app_nil in H as [H2 H3].
    apply issue_if_nil, Z.ltb_ge in H1, H2.
    apply (elements_clean _ _ _ _ Ev) in H3.
    apply elements_value in Ev as [Hj _].
    exists members, l. repeat split; try done; lia.
  - intros [members [l [-> [Hi [[Hlo Hhi] [Hj Hv]]]]]]. simpl. rewrite Hi.
    cbn [items_schema].
    assert ((elements_schema [Key "items"] 0 l).2 = Some its) as Ev.
    { apply elements_value. split; [done|].
      eapply Forall_impl; [exact Hv | apply valid_item_numeric]. }
    pose proof (proj2 (elements_clean _ _ _ _ Ev) Hv) as Hc.
    rewrite Ev, Hc.
    replace (Z.of_nat (length l) <? 1)%Z with false by (symmetry; apply Z.ltb_ge; lia).
    replace (100 <? Z.of_nat (length l))%Z with false by (symmetry; apply Z.ltb_ge; lia).
    done.
Qed.

(** A body that is not accepted is reported with at least one issue. *)
Lemma createOrderSchema_rejects (body : JValue num) :
  (forall its, ~ valid_body body its) ->
  exists first rest,
    (createOrderSchema body).1 = first :: rest /\
    parse (createOrderSchema body) = ZodError (first :: rest).
Proof.
  intros Hno.
  destruct (createOrderSchema body) as [issues value] eqn:E.
  destruct issues as [|first rest].
  - destruct body as [| | | | |members]; try discriminate. simpl in E.
    destruct (obj_get members "items") as [[| | | |l|]|] eqn:Ei; try discriminate.
    cbn [items_schema] in E. injection E as E1 E2.
    apply app_nil in E1 as [H1 H]. apply app_nil in H as [H2 H3].
    destruct (elements_total _ _ _ H3) as [its Hits].
    destruct (Hno its). apply createOrderSchema_accepts. simpl. rewrite Ei.
    cbn [items_schema]. by rewrite H1, H2, H3, Hits.
  - exists first, rest. split; [done|]. unfold parse. by destruct value.
Qed.

(** The issues of a body are the violations of its constraints. *)
Lemma createOrderSchema_issues (body : JValue num) iss :
  Violation body iss <-> In iss (createOrderSchema body).1.
Proof.
  split.
  - intros H. destruct H as [H | members H0 H | members l H0 H Hl
                            | members l H0 H Hl | members l i v iss H0 H Hi Hv].
    + destruct body; try (by left). by destruct (H members).
    + subst. simpl. destruct (obj_get members "items") as [[| | | |l|]|];
        try (by left). by destruct (H l).
    + subst. simpl. rewrite H. cbn [items_schema fst]. rewrite in_app_iff. left.
      apply issue_if_in. split; [apply Z.ltb_lt; lia | done].
    + subst. simpl. rewrite H. cbn [items_schema fst]. rewrite !in_app_iff.
      right. left. apply issue_if_in. split; [apply Z.ltb_lt; lia | done].
    + subst. simpl. rewrite H. cbn [items_schema fst]. rewrite !in_app_iff.
      right. right. apply elements_listed. exists i, v. split; [done|].
      by apply item_violation_listed.
  - destruct body as [| | | | |members];
      try (intros [<-|[]]; refine (bad_body _ _); intros; discriminate).
    simpl. destruct (obj_get members "items") as [[| | | |l|]|] eqn:Ei;
      cbn [items_schema fst In];
      try (intros [<-|[]]; rewrite <- Ei;
           apply (bad_items _ members); [done | rewrite Ei; congruence]).
    rewrite !in_app_iff. intros [H | [H | H]].
    + apply issue_if_in in H as [Hb ->]. apply Z.ltb_lt in Hb.
      apply (no_items _ members l); [done | done | lia].
    + apply issue_if_in in H as [Hb ->]. apply Z.ltb_lt in Hb.
      apply (too_many_items _ members l); [done | done | lia].
    + apply elements_listed in H as [j [v [Hj H]]].
      apply (in_item _ members l j v); [done | done | done |].
      by apply listed_item_violation.
Qed.

End Validation.

Lemma cement_body_valid : valid_body (req_body create_by_A) [cement].
Proof.
  exists [("items", JArr [cement_json])], [cement_json].
  repeat split; simpl; try lia.
  - repeat constructor.
    exists [("product", JStr "Cement"); ("quantity", JNum 50%Z);
            ("price", JNum 350%Z)]. by repeat split.
  - repeat constructor; simpl; lia.
Qed.

(** C7: a create-order request succeeds (201, the order is stored) exactly
    when its body is an object whose [items] is an array of 1 to 100 line
    items, each with a product name of 1 to 200 characters, a positive
    integer quantity and a positive price; otherwise it is answered with
    VALIDATION_ERROR (400), whose message is that of the first issue and
    whose details are the violated constraints, all of them, and the store
    is left unchanged. *)
Theorem create_validation {num : Type} {NUM : JSNumber num}
    (uuid : string) (now1 now2 : Z) (orders : Store num) (req : Request num) :
  (forall its, valid_body (req_body req) its ->
     let order := mkOrder uuid (req_userId req) its created
                          (num_toFixed2 (reduce_total its)) now1 now2 in
     postOrders uuid now1 now2 orders req =
       (Map_set orders uuid order,
        Sent (mkResponse 201 (Success (DataOrder order))))) /\
  ((forall its, ~ valid_body (req_body req) its) ->
     exists first rest,
       postOrders uuid now1 now2 orders req =
         (orders,
          Sent (mkResponse 400 (Failure
                  (mkError "VALIDATION_ERROR" (issue_message first)
                           (Some (first :: rest)))))) /\
       (forall iss, Violation (req_body req) iss <-> In iss (first :: rest))) /\
  ((exists its, valid_body (req_body req) its) <->
     exists r, (postOrders uuid now1 now2 orders req).2 = Sent r /\ ~ is_error r).
Proof.
  split; [|split].
  - intros its Hv. apply createOrderSchema_accepts in Hv.
    unfold postOrders. by rewrite Hv.
  - intros Hno. destruct (createOrderSchema_rejects _ Hno) as [first [rest [Hi Hp]]].
    exists first, rest. unfold postOrders. rewrite Hp. split; [done|].
    intros iss. rewrite <- Hi. apply createOrderSchema_issues.
  - split.
    + intros [its Hv]. apply createOrderSchema_accepts in Hv.
      unfold postOrders. rewrite Hv. eexists. split; [reflexivity|]. simpl. tauto.
    + unfold postOrders.
      destruct (parse (createOrderSchema (req_body req))) as [its|errors] eqn:E.
      * intros _. exists its. by apply createOrderSchema_accepts.
      * intros [r [Hr Hne]]. simpl in Hr.
        destruct errors; simpl in Hr; [discriminate|].
        injection Hr as <-. destruct Hne. exact I.
Qed.

Lemma create_validation_witness :
  postOrders "o1" 1000 1001 [] create_by_A =
    ([("o1", cement_order)],
     Sent (mkResponse 201 (Success (DataOrder cement_order)))).
Proof.
  exact (proj1 (create_validation "o1" 1000 1001 [] create_by_A)
               [cement] cement_body_valid).
Defined.

(** *** The total amount *)

Section Totals.

Context {num : Type} {NUM : JSNumber num}.

(** A mutation leaves the store alone or replaces one stored order by
    itself with a new status and a new update time. *)
Lemma mutate_shape (orders : Store num) (m : Mutation) :
  mutate orders m = orders \/
  exists key order st now,
    Map_get orders key = Some order /\
    mutate orders m = Map_set orders key (set_status order st now).
Proof.
  destruct m as [now req | now req]; simpl.
  - unfold patchStatus.
    destruct (parse (updateStatusSchema (req_body req))) as [st|]; [|by left].
    destruct (Map_get orders (req_params_id req)) as [order|] eqn:Hget; [|by left].
    destruct (access_denied order req) as [[|]|]; try (by left).
    destruct (_ && _); [by left|]. destruct (_ && _); [by left|].
    right. by exists (req_params_id req), order, st, now.
  - unfold deleteOrder.
    destruct (Map_get orders (req_params_id req)) as [order|] eqn:Hget; [|by left].
    destruct (access_denied order req) as [[|]|]; try (by left).
    destruct (Status_eqb _ completed); [by left|].
    destruct (Status_eqb _ cancelled); [by left|].
    right. by exists (req_params_id req), order, cancelled, now.
Qed.

Lemma mutate_keeps_total (orders : Store num) (m : Mutation) key order :
  Map_get orders key = Some order ->
  exists order', Map_get (mutate orders m) key = Some order' /\
                 totalAmount order' = totalAmount order /\
                 items order' = items order.
Proof.
  intros Hget.
  destruct (mutate_shape orders m) as [-> | [k [o [st [now [Hk ->]]]]]]; [eauto|].
  destruct (decide (k = key)) as [-> | Hne].
  - rewrite Map_get_set_eq. rewrite Hget in Hk. injection Hk as <-. eauto.
  - rewrite Map_get_set_ne by done. eauto.
Qed.

Lemma mutate_all_keeps_total (ms : list Mutation) (orders : Store num) key order :
  Map_get orders key = Some order ->
  exists order', Map_get (mutate_all orders ms) key = Some order' /\
                 totalAmount order' = totalAmount order /\
                 items order' = items order.
Proof.
  revert orders order. induction ms as [|m ms IH]; intros orders order Hget; simpl.
  - eauto.
  - destruct (mutate_keeps_total orders m key order Hget) as [o1 [H1 [Ht Hi]]].
    destruct (IH _ _ H1) as [o2 [H2 [Ht2 Hi2]]].
    exists o2. split; [exact H2|]. split; congruence.
Qed.

End Totals.

(** C3: the order created from a valid item sequence has as [totalAmount]
    the sum, taken left to right from 0, of price times quantity over the
    items, put through [toFixed(2)], and has status created; whatever
    status updates and cancellations follow, the stored order keeps that
    [totalAmount]. *)
Theorem total_fixed_at_creation {num : Type} {NUM : JSNumber num}
    (uuid : string) (now1 now2 : Z) (orders : Store num) (req : Request num)
    (its : list (Item num)) (ms : list Mutation) :
  valid_body (req_body req) its ->
  exists order,
    postOrders uuid now1 now2 orders req =
      (Map_set orders uuid order,
       Sent (mkResponse 201 (Success (DataOrder order)))) /\
    totalAmount order =
      num_toFixed2
        (fold_left (fun sum item => num_add sum (num_mul (price item) (quantity item)))
                   its num_zero) /\
    status order = created /\
    exists order',
      Map_get (mutate_all (Map_set orders uuid order) ms) uuid = Some order' /\
      totalAmount order' = totalAmount order.
Proof.
  intros Hv. eexists. split; [|split; [|split]].
  - apply createOrderSchema_accepts in Hv. unfold postOrders. by rewrite Hv.
  - reflexivity.
  - reflexivity.
  - edestruct (mutate_all_keeps_total ms) as [o' [H1 [H2 _]]];
      [apply Map_get_set_eq|]. eauto.
Qed.

Lemma total_fixed_at_creation_witness :
  exists order,
    postOrders "o1" 1000 1001 [] create_by_A =
      (Map_set [] "o1" order,
       Sent (mkResponse 201 (Success (DataOrder order)))) /\
    totalAmount order = 17500%Z /\
    status order = created /\
    exists order',
      Map_get (mutate_all (Map_set [] "o1" order) later_mutations) "o1" = Some order' /\
      totalAmount order' = totalAmount order.
Proof.
  exact (total_fixed_at_creation "o1" 1000 1001 [] create_by_A [cement]
           later_mutations cement_body_valid).
Defined.

(** *** Pagination *)

Section Paging.

Context {num : Type} {NUM : JSNumber num}.

Lemma Array_slice_window {A : Type} (l : list A) (s e : Z) :
  (0 <= s <= e)%Z ->
  Array_slice l s e = take (Z.to_nat (e - s)) (drop (Z.to_nat s) l).
Proof.
  intros H. unfold Array_slice.
  replace (s <? 0)%Z with false by (symmetry; apply Z.ltb_ge; lia).
  replace (e <? 0)%Z with false by (symmetry; apply Z.ltb_ge; lia).
  destruct (Z.le_gt_cases s (Z.of_nat (length l))) as [Hs | Hs].
  - rewrite (Z.min_l s) by lia.
    destruct (Z.le_gt_cases e (Z.of_nat (length l))) as [He | He].
    + by rewrite (Z.min_l e) by lia.
    + rewrite (Z.min_r e) by lia.
      rewrite !take_ge; [done | rewrite length_drop; lia | rewrite length_drop; lia].
  - rewrite (Z.min_r s), (Z.min_r e) by lia.
    rewrite Z.sub_diag. simpl.
    rewrite (drop_ge l (Z.to_nat s)) by lia. by rewrite take_nil.
Qed.

Lemma page_window (l : list (Order num)) (page limit : Z) :
  (1 <= page)%Z -> (1 <= limit)%Z ->
  (paginate l page limit).1 =
    take (Z.to_nat limit) (drop (Z.to_nat ((page - 1) * limit)) l).
Proof.
  intros Hp Hl. unfold paginate. cbn [fst].
  rewrite Array_slice_window by nia. f_equal. lia.
Qed.

Lemma pages_concat (l : list (Order num)) (limit : Z) (n : nat) :
  (1 <= limit)%Z ->
  concat (pages l limit n) = take (n * Z.to_nat limit) l.
Proof.
  intros Hl. unfold pages. induction n as [|n IH]; [done|].
  rewrite seq_S, map_app, concat_app, IH. cbn [map concat].
  rewrite app_nil_r, page_window by lia.
  replace (Z.to_nat ((Z.of_nat (1 + n) - 1) * limit)) with (n * Z.to_nat limit)%nat by nia.
  rewrite take_take_drop. f_equal. lia.
Qed.

Lemma sum_sizes_concat (ps : list (list (Order num))) :
  sum_sizes ps = Z.of_nat (length (concat ps)).
Proof.
  induction ps as [|p ps IH]; simpl; [done|].
  rewrite length_app, IH. lia.
Qed.

Lemma Math_ceil_div_spec (total limit : Z) :
  (0 < limit)%Z ->
  ((Math_ceil_div total limit - 1) * limit < total <= Math_ceil_div total limit * limit)%Z.
Proof.
  intros Hl. unfold Math_ceil_div.
  pose proof (Z.mul_div_le (- total) limit Hl).
  pose proof (Z.mul_succ_div_gt (- total) limit Hl). nia.
Qed.

Lemma effective_limit_range (q : Query) : (1 <= effective_limit q <= 100)%Z.
Proof. unfold effective_limit. lia. Qed.

Lemma effective_page_range (q : Query) : (1 <= effective_page q)%Z.
Proof. unfold effective_page. lia. Qed.

Lemma effective_page_requested (q : Query) :
  effective_page q = Z.max 1 (default 1%Z (requested (q_page q))).
Proof.
  unfold effective_page, parseInt_or, requested.
  destruct (q_page q ≫= parseInt) as [n|]; simpl; [|done].
  destruct (n =? 0)%Z eqn:E; [|done]. apply Z.eqb_eq in E. lia.
Qed.

Lemma effective_limit_requested (q : Query) :
  effective_limit q =
    match requested (q_limit q) with
    | Some n => if (n =? 0)%Z then 10%Z else clamp 1 100 n
    | None => 10%Z
    end.
Proof.
  unfold effective_limit, parseInt_or, requested, clamp.
  destruct (q_limit q ≫= parseInt) as [n|]; [|done].
  by destruct (n =? 0)%Z.
Qed.

Lemma sort_insert_perm {A : Type} (cmp : A -> A -> Z) (x : A) (l : list A) :
  sort_insert cmp x l ≡ₚ x :: l.
Proof.
  induction l as [|y rest IH]; simpl; [done|].
  destruct (cmp x y <=? 0)%Z; [done|].
  rewrite IH. apply Permutation_swap.
Qed.

Lemma Array_sort_perm {A : Type} (cmp : A -> A -> Z) (l : list A) :
  Array_sort cmp l ≡ₚ l.
Proof.
  unfold Array_sort. induction l as [|x rest IH]; simpl; [done|].
  by rewrite sort_insert_perm, IH.
Qed.

Lemma filter_visible_spec (req : Request num) (l l' : list (Order num)) :
  filter_visible req l = Some l' -> l' = List.filter (visible req) l.
Proof.
  revert l'. induction l as [|o rest IH]; intros l'; simpl.
  - by intros [= <-].
  - unfold visible at 1.
    destruct (String.eqb (userId o) (req_userId req)); simpl.
    + destruct (filter_visible req rest) as [r|]; simpl; [|done].
      intros [= <-]. by rewrite (IH r).
    + destruct (includes (req_userRoles req) "admin") as [b|]; simpl; [|done].
      destruct (filter_visible req rest) as [r|]; simpl; [|done].
      intros [= <-]. by rewrite (IH r).
Qed.

Lemma filter_status_spec (st : Status) (l : list (Order num)) :
  filter (fun o => Status_eqb (status o) st = true) l =
  List.filter (fun o => Status_eqb (status o) st) l.
Proof.
  induction l as [|o rest IH]; [done|].
  rewrite filter_cons. simpl. rewrite IH.
  destruct (Status_eqb (status o) st) eqn:E; case_decide; congruence.
Qed.

Lemma filter_filter_andb {A : Type} (f g : A -> bool) (l : list A) :
  List.filter g (List.filter f l) = List.filter (fun x => f x && g x) l.
Proof.
  induction l as [|x rest IH]; [done|]. simpl.
  destruct (f x); simpl; [|done]. destruct (g x); by rewrite IH.
Qed.

Lemma userOrders_selected (orders : Store num) (req : Request num) l :
  userOrders orders req = Some l -> l ≡ₚ selected orders req.
Proof.
  unfold userOrders, selected, matches_status.
  destruct (filter_visible req (Map_values orders)) as [v|] eqn:Ev; simpl; [|done].
  intros [= <-]. rewrite Array_sort_perm.
  apply filter_visible_spec in Ev. subst v.
  destruct (q_status (req_query req) ≫= status_enum) as [st|].
  - by rewrite filter_status_spec, filter_filter_andb.
  - rewrite <- filter_filter_andb. simpl.
    induction (List.filter (visible req) (Map_values orders)) as [|x r IH]; simpl; [done|].
    by rewrite <- IH.
Qed.
Lemma hasNext_pages (page limit total : Z) :
  (0 < limit)%Z ->
  ((page - 1) * limit + limit <? total)%Z = (page <? Math_ceil_div total limit)%Z.
Proof.
  intros Hl. pose proof (Math_ceil_div_spec total limit Hl).
  destruct (page <? Math_ceil_div total limit)%Z eqn:E.
  - apply Z.ltb_lt in E. apply Z.ltb_lt. nia.
  - apply Z.ltb_ge in E. apply Z.ltb_ge. nia.
Qed.

End Paging.

(** C5, as stated, fails: a requested page size of 0 is not clamped to 1;
    [parseInt(...) || 10] takes it for a missing one and the size is 10. *)
Lemma zero_limit_is_default :
  requested (q_limit zero_limit) = Some 0%Z /\
  clamp 1 100 0 = 1%Z /\
  effective_limit zero_limit = 10%Z /\
  exists slice pg,
    listOrders (store_A created) (list_by_A zero_limit) =
      (store_A created, Sent (mkResponse 200 (Success (DataList slice pg)))) /\
    pg_limit pg = 10%Z.
Proof. repeat split. eexists _, _. split; reflexivity. Qed.

(** C5 (amended): for a list request that is answered (the role check can
    be evaluated on the caller's role set) and a page number on which the
    handler's arithmetic is exact ([exact_pages]): the page number is
    max(1, requested page), 1 when none is requested; the page size is the
    requested size clamped into [1,100], and 10 when none is requested or the
    requested size is 0.  For the filtered and sorted collection [l], the
    answer carries the slice [(page-1)*limit, page*limit) of [l],
    [total = length l], [totalPages] the ceiling of [total / limit],
    [hasNext] exactly when [page < totalPages] and [hasPrev] exactly when
    [page > 1]; the pages 1..totalPages put end to end are [l], so their
    sizes sum to [total]; [l] holds exactly the orders the request selects. *)
Theorem list_pagination {num : Type} {NUM : JSNumber num}
    (orders : Store num) (req : Request num) (l : list (Order num)) (isAdmin : bool) :
  userOrders orders req = Some l ->
  includes (req_userRoles req) "admin" = Some isAdmin ->
  exact_pages (req_query req) ->
  let q := req_query req in
  let page := effective_page q in
  let limit := effective_limit q in
  let total := Z.of_nat (length l) in
  let totalPages := Math_ceil_div total limit in
  page = Z.max 1 (default 1%Z (requested (q_page q))) /\
  limit = match requested (q_limit q) with
          | Some n => if (n =? 0)%Z then 10%Z else clamp 1 100 n
          | None => 10%Z
          end /\
  (1 <= limit <= 100)%Z /\
  listOrders orders req =
    (orders,
     Sent (mkResponse 200 (Success
       (DataList (take (Z.to_nat limit) (drop (Z.to_nat ((page - 1) * limit)) l))
                 (mkPagination page limit total totalPages
                               (page <? totalPages)%Z (1 <? page)%Z))))) /\
  ((totalPages - 1) * limit < total <= totalPages * limit)%Z /\
  concat (pages l limit (Z.to_nat totalPages)) = l /\
  sum_sizes (pages l limit (Z.to_nat totalPages)) = total /\
  l ≡ₚ selected orders req.
Proof.
  intros Hl Hrole _ q page limit total totalPages.
  pose proof (effective_limit_range q) as Hlim.
  pose proof (effective_page_range q) as Hpage.
  pose proof (Math_ceil_div_spec total limit ltac:(unfold limit; lia)) as Hceil.
  assert (concat (pages l limit (Z.to_nat totalPages)) = l) as Hcat.
  { rewrite pages_concat by (unfold limit; lia).
    apply take_ge. fold limit totalPages in Hceil. unfold total in Hceil. nia. }
  split; [apply effective_page_requested|].
  split; [apply effective_limit_requested|].
  split; [exact Hlim|].
  split; [|split; [exact Hceil|split; [exact Hcat|split]]].
  - unfold listOrders. rewrite Hl, Hrole. cbn [fst snd].
    rewrite page_window by (fold q; lia).
    unfold paginate. cbn [snd]. fold q page limit total.
    rewrite hasNext_pages by (unfold limit; lia). done.
  - by rewrite sum_sizes_concat, Hcat.
  - by apply userOrders_selected.
Qed.

Lemma list_pagination_witness :
  listOrders many_orders (list_by_A first_ten) =
    (many_orders,
     Sent (mkResponse 200 (Success
       (DataList (take 10 (Array_sort (compareFn "createdAt" (-1)) (Map_values many_orders)))
                 (mkPagination 1 10 25 3 true false))))).
Proof.
  assert (userOrders many_orders (list_by_A first_ten) =
          Some (Array_sort (compareFn "createdAt" (-1)) (Map_values many_orders))) as Hl
    by reflexivity.
  assert (includes (req_userRoles (list_by_A first_ten)) "admin" = Some false) as Hrole
    by reflexivity.
  assert (exact_pages (req_query (list_by_A first_ten))) as Hexact
    by (unfold exact_pages; vm_compute; discriminate).
  exact (proj1 (proj2 (proj2 (proj2
           (list_pagination many_orders (list_by_A first_ten) _ false
              Hl Hrole Hexact))))).
Defined.

(** ** Further properties of the orders service *)

Section StoreFacts.

Context {num : Type} {NUM : JSNumber num}.

Implicit Types (orders : Store num) (req : Request num) (order : Order num).

Lemma Map_get_In orders key order :
  Map_get orders key = Some order -> In (key, order) orders.
Proof.
  induction orders as [|[k o] rest IH]; simpl; [done|].
  destruct (String.eqb k key) eqn:E.
  - apply String.eqb_eq in E. intros [= <-]. left. by subst.
  - intros H. right. by apply IH.
Qed.

Lemma Map_get_None_keys orders key :
  Map_get orders key = None <-> ~ In key (map fst orders).
Proof.
  induction orders as [|[k o] rest IH]; simpl; [tauto|].
  destruct (String.eqb k key) eqn:E.
  - apply String.eqb_eq in E. split; [discriminate | tauto].
  - apply String.eqb_neq in E. rewrite IH. tauto.
Qed.

Lemma Map_set_fresh orders key order :
  Map_get orders key = None -> Map_set orders key order = orders ++ [(key, order)].
Proof.
  induction orders as [|[k o] rest IH]; simpl; [done|].
  destruct (String.eqb k key); [discriminate|].
  intros H. by rewrite IH.
Qed.

Lemma Map_set_keys orders key order order' :
  Map_get orders key = Some order ->
  map fst (Map_set orders key order') = map fst orders.
Proof.
  induction orders as [|[k o] rest IH]; simpl; [done|].
  destruct (String.eqb k key); simpl; [done|].
  intros H. by rewrite IH.
Qed.

Lemma related_refl {A : Type} (R : A -> A -> Prop) (l : list A) :
  (forall x, R x x) -> Forall2 R l l.
Proof. intros H. induction l; by constructor. Qed.

Lemma related_trans {A : Type} (R : A -> A -> Prop) (l1 l2 l3 : list A) :
  (forall x y z, R x y -> R y z -> R x z) ->
  Forall2 R l1 l2 -> Forall2 R l2 l3 -> Forall2 R l1 l3.
Proof.
  intros Ht H. revert l3. induction H as [|x y l1 l2 Hxy _ IH]; intros l3 H23.
  - by inversion H23.
  - inversion H23; subst. constructor; eauto.
Qed.

(** Replacing a stored order by a record that agrees with it on [R] keeps
    the entries related, place by place. *)
Lemma Map_set_related (R : Order num -> Order num -> Prop) orders key order order' :
  (forall o, R o o) ->
  Map_get orders key = Some order -> R order order' ->
  Forall2 (fun e e' => e.1 = e'.1 /\ R e.2 e'.2) orders (Map_set orders key order').
Proof.
  intros Hrefl. induction orders as [|[k o] rest IH]; simpl; [done|].
  destruct (String.eqb k key).
  - intros [= ->] HR. constructor; [done|].
    apply related_refl. auto.
  - intros Hget HR. constructor; [by split | by apply IH].
Qed.

Lemma same_record_refl order : same_record order order.
Proof. by unfold same_record. Qed.

Lemma same_record_trans (a b c : Order num) :
  same_record a b -> same_record b c -> same_record a c.
Proof. unfold same_record. intuition congruence. Qed.

Lemma mutate_related orders (m : Mutation) :
  Forall2 (fun e e' => e.1 = e'.1 /\ same_record e.2 e'.2) orders (mutate orders m).
Proof.
  destruct (mutate_shape orders m) as [-> | [k [o [st [now [Hk ->]]]]]].
  - apply related_refl. intros x. split; [done | apply same_record_refl].
  - apply (Map_set_related same_record _ _ o); [apply same_record_refl | done | done].
Qed.
End StoreFacts.

(** X1: status updates and cancellations never add, remove or reorder
    orders, and write nothing but [status] and [updatedAt]: after any
    sequence of them the store has the same keys in the same places, and
    every order has its [id], [userId], [items], [totalAmount] and
    [createdAt] of before. *)
Theorem mutations_write_status_only {num : Type} {NUM : JSNumber num}
    (ms : list Mutation) (orders : Store num) :
  Forall2 (fun e e' => e.1 = e'.1 /\ same_record e.2 e'.2)
          orders (mutate_all orders ms).
Proof.
  revert orders. induction ms as [|m ms IH]; intros orders; simpl.
  - apply related_refl. intros x. split; [done | apply same_record_refl].
  - eapply related_trans; [| apply mutate_related | apply IH].
    intros x y z [H1 H2] [H3 H4]. split; [congruence|].
    eapply same_record_trans; eauto.
Qed.

Section StatusFacts.

Context {num : Type} {NUM : JSNumber num}.

Lemma mutate_keeps_absorbing (orders : Store num) (m : Mutation) key order :
  Map_get orders key = Some order -> absorbing (status order) ->
  exists order', Map_get (mutate orders m) key = Some order' /\
                 status order' = status order.
Proof.
  intros Hget Habs. destruct m as [now req | now req]; simpl.
  - unfold patchStatus.
    destruct (parse (updateStatusSchema (req_body req))) as [st|]; [|eauto].
    destruct (Map_get orders (req_params_id req)) as [o|] eqn:Ho; [|eauto].
    destruct (access_denied o req) as [[|]|]; eauto.
    destruct (Status_eqb (status o) completed && negb (Status_eqb st completed)) eqn:E1;
      [eauto|].
    destruct (Status_eqb (status o) cancelled && negb (Status_eqb st cancelled)) eqn:E2;
      [eauto|].
    cbn [fst]. destruct (decide (req_params_id req = key)) as [Hk | Hk].
    + rewrite Hk in *. rewrite Map_get_set_eq. rewrite Hget in Ho. injection Ho as <-.
      eexists. split; [reflexivity|]. simpl.
      destruct Habs as [Hs | Hs]; rewrite Hs in *; simpl in *;
        destruct st; simpl in *; congruence.
    + rewrite Map_get_set_ne by done. eauto.
  - unfold deleteOrder.
    destruct (Map_get orders (req_params_id req)) as [o|] eqn:Ho; [|eauto].
    destruct (access_denied o req) as [[|]|]; eauto.
    destruct (Status_eqb (status o) completed) eqn:E1; [eauto|].
    destruct (Status_eqb (status o) cancelled) eqn:E2; [eauto|].
    cbn [fst]. destruct (decide (req_params_id req = key)) as [Hk | Hk].
    + rewrite Hk in *. rewrite Hget in Ho. injection Ho as <-.
      destruct Habs as [Hs | Hs]; rewrite Hs in *; discriminate.
    + rewrite Map_get_set_ne by done. eauto.
Qed.

Lemma mutate_by_outsider (orders : Store num) (m : Mutation) key order :
  Map_get orders key = Some order ->
  outsider (userId order) (mutation_request m) ->
  Map_get (mutate orders m) key = Some order.
Proof.
  intros Hget [Hne Hrole].
  assert (forall req, req = mutation_request m ->
            req_params_id req = key -> access_denied order req = Some true) as Hden.
  { intros req -> _. apply access_denied_true. split; [|done].
    unfold is_owner. congruence. }
  destruct m as [now req | now req]; simpl in *.
  - unfold patchStatus.
    destruct (parse (updateStatusSchema (req_body req))) as [st|]; [|done].
    destruct (Map_get orders (req_params_id req)) as [o|] eqn:Ho; [|done].
    destruct (decide (req_params_id req = key)) as [Hk | Hk].
    + rewrite Hk in Ho. rewrite Hget in Ho. injection Ho as <-.
      by rewrite (Hden req eq_refl Hk).
    + destruct (access_denied o req) as [[|]|]; try done.
      destruct (_ && _); [done|]. destruct (_ && _); [done|].
      cbn [fst]. by rewrite Map_get_set_ne.
  - unfold deleteOrder.
    destruct (Map_get orders (req_params_id req)) as [o|] eqn:Ho; [|done].
    destruct (decide (req_params_id req = key)) as [Hk | Hk].
    + rewrite Hk in Ho. rewrite Hget in Ho. injection Ho as <-.
      by rewrite (Hden req eq_refl Hk).
    + destruct (access_denied o req) as [[|]|]; try done.
      destruct (Status_eqb _ completed); [done|].
      destruct (Status_eqb _ cancelled); [done|].
      cbn [fst]. by rewrite Map_get_set_ne.
Qed.

End StatusFacts.

(** X2: completed and cancelled are final over any history: an order that
    is stored in one of these statuses is still stored, in that status,
    after any sequence of status updates and cancellations by any callers. *)
Theorem absorbing_forever {num : Type} {NUM : JSNumber num}
    (ms : list Mutation) (orders : Store num) (key : string) (order : Order num) :
  Map_get orders key = Some order ->
  absorbing (status order) ->
  exists order', Map_get (mutate_all orders ms) key = Some order' /\
                 status order' = status order.
Proof.
  revert orders order. induction ms as [|m ms IH]; intros orders order Hget Habs; simpl.
  - eauto.
  - destruct (mutate_keeps_absorbing orders m key order Hget Habs) as [o1 [H1 Hs1]].
    destruct (IH _ o1 H1) as [o2 [H2 Hs2]]; [by rewrite Hs1|].
    exists o2. split; [done | congruence].
Qed.

Lemma absorbing_forever_witness :
  exists order',
    Map_get (mutate_all (store_A completed) later_mutations) "o1" = Some order' /\
    status order' = completed.
Proof.
  apply (absorbing_forever later_mutations (store_A completed) "o1" (order_A completed)).
  - reflexivity.
  - left. reflexivity.
Defined.


(** X3: callers who are neither the owner nor admins cannot change an
    order: whatever status updates and cancellations they send, on whatever
    identifiers, the order is stored afterwards exactly as before
    ([updatedAt] included). *)
Theorem outsiders_change_nothing {num : Type} {NUM : JSNumber num}
    (ms : list Mutation) (orders : Store num) (key : string) (order : Order num) :
  Map_get orders key = Some order ->
  Forall (fun m => outsider (userId order) (mutation_request m)) ms ->
  Map_get (mutate_all orders ms) key = Some order.
Proof.
  revert orders. induction ms as [|m ms IH]; intros orders Hget Hall; simpl; [done|].
  inversion Hall as [|? ? Hm Hms]; subst.
  apply IH; [|done]. by apply mutate_by_outsider.
Qed.

Lemma outsiders_change_nothing_witness :
  Map_get (mutate_all (store_A created) outsider_mutations) "o1" =
    Some (order_A created).
Proof.
  apply (outsiders_change_nothing outsider_mutations (store_A created) "o1"
           (order_A created)).
  - reflexivity.
  - repeat constructor; simpl; discriminate.
Defined.


(** X4: cancellation is a status, not a removal: after a successful cancel
    the order is still served to its reader, with status cancelled and the
    time of the cancel as [updatedAt]; cancelling it again fails with
    ALREADY_CANCELLED, and moving it to another status fails with
    INVALID_STATUS_TRANSITION. *)
Theorem cancel_keeps_order {num : Type} {NUM : JSNumber num}
    (orders : Store num) (req : Request num) (order : Order num)
    (now later : Z) (target : Status) :
  Map_get orders (req_params_id req) = Some order ->
  is_owner order req \/ holds_admin req ->
  ~ absorbing (status order) ->
  targets req target -> target <> cancelled ->
  let orders' := (deleteOrder now orders req).1 in
  let order' := set_status order cancelled now in
  getOrder orders' req =
    (orders', Sent (mkResponse 200 (Success (DataOrder order')))) /\
  status order' = cancelled /\ updatedAt order' = now /\
  fails_with (deleteOrder later orders' req) orders' 400 "ALREADY_CANCELLED" /\
  fails_with (patchStatus later orders' req) orders' 400 "INVALID_STATUS_TRANSITION".
Proof.
  intros Hget Hok Hna Htarget Hne orders' order'.
  assert (orders' = Map_set orders (req_params_id req) order') as Ho.
  { unfold orders', deleteOrder. rewrite Hget.
    rewrite (proj2 (access_denied_false order req) Hok).
    destruct (status order) eqn:Es; simpl; try done; destruct Hna; [by left | by right]. }
  assert (Map_get orders' (req_params_id req) = Some order') as Hget'.
  { rewrite Ho. apply Map_get_set_eq. }
  assert (access_denied order' req = Some false) as Hacc.
  { apply access_denied_false in Hok. exact Hok. }
  split; [|split; [done|split; [done|split]]].
  - unfold getOrder. by rewrite Hget', Hacc.
  - unfold deleteOrder. rewrite Hget', Hacc. simpl.
    split; [done|]. eexists. split; [reflexivity | done].
  - apply parse_targets in Htarget. unfold patchStatus.
    rewrite Htarget, Hget', Hacc. simpl.
    replace (Status_eqb target cancelled) with false
      by (destruct target; simpl; congruence).
    simpl. split; [done|]. eexists. split; [reflexivity | done].
Qed.

Lemma cancel_keeps_order_witness :
  fails_with
    (deleteOrder 3000 (deleteOrder 2000 (store_A created) (update_by_A "in_progress")).1
                 (update_by_A "in_progress"))
    (deleteOrder 2000 (store_A created) (update_by_A "in_progress")).1
    400 "ALREADY_CANCELLED".
Proof.
  apply (cancel_keeps_order (store_A created) (update_by_A "in_progress")
           (order_A created) 2000 3000 in_progress).
  - reflexivity.
  - left. reflexivity.
  - intros [H | H]; discriminate.
  - exists [("status", JStr "in_progress")]. split; reflexivity.
  - discriminate.
Defined.


(** X5: what is created can be read back: after a create request with a
    valid body, a read of the new identifier by the same caller returns
    exactly the order of the 201 answer, and a read by any other caller who
    is no admin is refused with FORBIDDEN. *)
Theorem create_then_read {num : Type} {NUM : JSNumber num}
    (uuid : string) (now1 now2 : Z) (orders : Store num) (req : Request num)
    (its : list (Item num)) (read other : Request num) :
  valid_body (req_body req) its ->
  req_params_id read = uuid -> req_userId read = req_userId req ->
  req_params_id other = uuid -> outsider (req_userId req) other ->
  exists order,
    postOrders uuid now1 now2 orders req =
      (Map_set orders uuid order, Sent (mkResponse 201 (Success (DataOrder order)))) /\
    getOrder (Map_set orders uuid order) read =
      (Map_set orders uuid order, Sent (mkResponse 200 (Success (DataOrder order)))) /\
    fails_with (getOrder (Map_set orders uuid order) other)
               (Map_set orders uuid order) 403 "FORBIDDEN".
Proof.
  intros Hv Hid Huid Hid' [Hne Hrole].
  apply createOrderSchema_accepts in Hv.
  eexists. split; [unfold postOrders; by rewrite Hv|]. simpl.
  unfold getOrder. rewrite Hid, Hid', Map_get_set_eq. split.
  - unfold access_denied. simpl. rewrite <- Huid. by rewrite String.eqb_refl.
  - unfold access_denied. simpl.
    replace (String.eqb (req_userId req) (req_userId other)) with false
      by (symmetry; apply String.eqb_neq; congruence).
    rewrite Hrole. simpl. split; [done|]. eexists. split; [reflexivity | done].
Qed.

Lemma create_then_read_witness :
  exists order,
    postOrders "o1" 1000 1001 [] create_by_A =
      (Map_set [] "o1" order, Sent (mkResponse 201 (Success (DataOrder order)))) /\
    getOrder (Map_set [] "o1" order) read_by_A =
      (Map_set [] "o1" order, Sent (mkResponse 200 (Success (DataOrder order)))) /\
    fails_with (getOrder (Map_set [] "o1" order) read_by_B)
               (Map_set [] "o1" order) 403 "FORBIDDEN".
Proof.
  apply (create_then_read "o1" 1000 1001 [] create_by_A [cement] read_by_A read_by_B).
  - exact cement_body_valid.
  - reflexivity.
  - reflexivity.
  - reflexivity.
  - split; [discriminate | reflexivity].
Defined.


Section Reachable.

Context {num : Type} {NUM : JSNumber num}.

Lemma Map_set_wf (orders : Store num) key order :
  store_wf orders -> id order = key -> store_wf (Map_set orders key order).
Proof.
  intros [Hnd Hk] Hid.
  destruct (Map_get orders key) as [o|] eqn:Hget.
  - split.
    + by rewrite (Map_set_keys _ _ o).
    + clear Hnd Hget. induction orders as [|[k o'] rest IH]; simpl.
      * by repeat constructor.
      * apply Forall_cons in Hk as [Hh Ht].
        destruct (String.eqb k key) eqn:E.
        -- apply String.eqb_eq in E. constructor; [simpl; congruence | done].
        -- constructor; [done | by apply IH].
  - rewrite Map_set_fresh by done. split.
    + rewrite map_app. simpl. apply NoDup_app. split; [done|]. split.
      * intros x Hx [->|[]]%list_elem_of_In. apply Map_get_None_keys in Hget.
        by apply Hget, list_elem_of_In.
      * apply NoDup_singleton.
    + apply Forall_app. split; [done|]. by repeat constructor.
Qed.

Lemma handle_shape (orders : Store num) (c : Call) :
  (handle orders c).1 = orders \/
  (exists uuid order, id order = uuid /\ (handle orders c).1 = Map_set orders uuid order) \/
  (exists key order st now,
     Map_get orders key = Some order /\
     (handle orders c).1 = Map_set orders key (set_status order st now)).
Proof.
  destruct c as [uuid now1 now2 req | req | req | now req | now req]; simpl.
  - unfold postOrders. destruct (parse (createOrderSchema (req_body req))); [|by left].
    right. left. by eexists _, _.
  - left. unfold getOrder. destruct (Map_get _ _); [|done].
    by destruct (access_denied _ _) as [[|]|].
  - left. unfold listOrders. destruct (userOrders _ _); [|done].
    by destruct (includes _ _).
  - destruct (mutate_shape orders (StatusUpdate now req)) as [H | H]; [by left|].
    right. by right.
  - destruct (mutate_shape orders (Cancel now req)) as [H | H]; [by left|].
    right. by right.
Qed.

Lemma handle_wf (orders : Store num) (c : Call) :
  store_wf orders -> store_wf (handle orders c).1.
Proof.
  intros Hwf.
  destruct (handle_shape orders c)
    as [-> | [[uuid [o [Hid ->]]] | [k [o [st [now [Hget ->]]]]]]]; [done | |].
  - by apply Map_set_wf.
  - apply Map_set_wf; [done|]. simpl.
    destruct Hwf as [_ Hk]. apply Map_get_In in Hget.
    rewrite Forall_forall in Hk. by apply (Hk (k, o)), list_elem_of_In.
Qed.

End Reachable.

(** X6: in every store the service can reach from the empty one, each
    order is stored under its own [id] and no identifier occurs twice; so a
    read that succeeds returns an order whose [id] is the identifier asked
    for. *)
Theorem reachable_store_wf {num : Type} {NUM : JSNumber num}
    (cs : list Call) (req : Request num) (order : Order num) :
  store_wf (handle_all ([] : Store num) cs) /\
  ((getOrder (handle_all [] cs) req).2 =
     Sent (mkResponse 200 (Success (DataOrder order))) ->
   id order = req_params_id req).
Proof.
  assert (forall (s : Store num), store_wf s -> store_wf (handle_all s cs)) as Hall.
  { induction cs as [|c cs IH]; intros s Hs; simpl; [done|].
    apply IH. by apply handle_wf. }
  assert (store_wf (handle_all ([] : Store num) cs)) as Hwf.
  { apply Hall. split; constructor. }
  split; [exact Hwf|].
  unfold getOrder.
  destruct (Map_get (handle_all [] cs) (req_params_id req)) as [o|] eqn:Hget;
    [|discriminate].
  destruct (access_denied o req) as [[|]|]; try discriminate.
  intros [= <-]. destruct Hwf as [_ Hk]. apply Map_get_In in Hget.
  rewrite Forall_forall in Hk. by apply (Hk (_, o)), list_elem_of_In.
Qed.

Lemma reachable_store_wf_witness :
  id cement_order = req_params_id read_by_A.
Proof.
  apply (reachable_store_wf [CallCreate "o1" 1000 1001 create_by_A] read_by_A
           cement_order).
  reflexivity.
Defined.


(** X7: the [ordersCount] of the health check changes only when an order
    is created: a call leaves it as it is, except a create request with a
    valid body and an identifier not yet stored, which raises it by one. *)
Theorem health_counts_creations {num : Type} {NUM : JSNumber num}
    (orders : Store num) (c : Call) (t t' : Z) :
  let before := h_ordersCount (health t orders) in
  let after := h_ordersCount (health t' (handle orders c).1) in
  (0 <= before /\
  (after = before \/ after = before + 1) /\
  (after = before + 1 <->
   exists uuid now1 now2 req its,
     c = CallCreate uuid now1 now2 req /\
     valid_body (req_body req) its /\
     Map_get orders uuid = None))%Z.
Proof.
  simpl. unfold Map_size. split; [lia|].
  assert (forall key o o', Map_get orders key = Some o ->
            length (Map_set orders key o') = length orders) as Hsame.
  { intros key o o' Hget.
    rewrite <- (length_map fst), (Map_set_keys _ _ o) by done. by rewrite length_map. }
  assert (forall key o', Map_get orders key = None ->
            length (Map_set orders key o') = S (length orders)) as Hfresh.
  { intros key o' Hget. rewrite Map_set_fresh by done.
    rewrite length_app. simpl. lia. }
  destruct c as [uuid now1 now2 req | req | req | now req | now req].
  - simpl. unfold postOrders.
    destruct (parse (createOrderSchema (req_body req))) as [its|errors] eqn:Ep.
    + cbn [fst id]. destruct (Map_get orders uuid) as [o|] eqn:Hget.
      * rewrite (Hsame _ o) by done. split; [by left|]. split; [lia|].
        intros [u [n1 [n2 [rq [its' [[= <- <- <- <-] [_ Hn]]]]]]]. congruence.
      * rewrite Hfresh by done. split; [right; lia|]. split; [|lia].
        intros _. exists uuid, now1, now2, req, its.
        split; [done|]. split; [by apply createOrderSchema_accepts | done].
    + cbn [fst]. split; [by left|]. split; [lia|].
      intros [u [n1 [n2 [rq [its' [[= <- <- <- <-] [Hv _]]]]]]].
      apply createOrderSchema_accepts in Hv. congruence.
  - assert ((handle orders (CallRead req)).1 = orders) as ->.
    { simpl. unfold getOrder. destruct (Map_get _ _); [|done].
      by destruct (access_denied _ _) as [[|]|]. }
    split; [by left|]. split; [lia|]. by intros [? [? [? [? [? [? _]]]]]].
  - assert ((handle orders (CallList req)).1 = orders) as ->.
    { simpl. unfold listOrders. destruct (userOrders _ _); [|done].
      by destruct (includes _ _). }
    split; [by left|]. split; [lia|]. by intros [? [? [? [? [? [? _]]]]]].
  - assert (length (handle orders (CallUpdate now req)).1 = length orders) as ->.
    { simpl. destruct (mutate_shape orders (StatusUpdate now req))
        as [H | [k [o [st [n [Hget H]]]]]]; simpl in H; rewrite H; [done|].
      by apply (Hsame _ o). }
    split; [by left|]. split; [lia|]. by intros [? [? [? [? [? [? _]]]]]].
  - assert (length (handle orders (CallCancel now req)).1 = length orders) as ->.
    { simpl. destruct (mutate_shape orders (Cancel now req))
        as [H | [k [o [st [n [Hget H]]]]]]; simpl in H; rewrite H; [done|].
      by apply (Hsame _ o). }
    split; [by left|]. split; [lia|]. by intros [? [? [? [? [? [? _]]]]]].
Qed.

Lemma health_counts_creations_witness :
  h_ordersCount (health 2000 (handle [] (CallCreate "o1" 1000 1001 create_by_A)).1) =
  (h_ordersCount (health 1000 ([] : Store Z)) + 1)%Z.
Proof.
  apply (health_counts_creations [] (CallCreate "o1" 1000 1001 create_by_A) 1000 2000).
  exists "o1", 1000%Z, 1001%Z, create_by_A, [cement].
  split; [reflexivity|]. split; [exact cement_body_valid | reflexivity].
Defined.


Section ListingFacts.

Context {num : Type} {NUM : JSNumber num}.

Lemma In_take {A : Type} (x : A) (n : nat) (l : list A) : In x (take n l) -> In x l.
Proof.
  revert n. induction l as [|y l IH]; intros [|n]; simpl; try tauto.
  intros [-> | H]; [by left | right; eauto].
Qed.

Lemma In_drop {A : Type} (x : A) (n : nat) (l : list A) : In x (drop n l) -> In x l.
Proof.
  revert n. induction l as [|y l IH]; intros [|n]; simpl; try tauto.
  intros H. right. eauto.
Qed.

Lemma In_Array_slice {A : Type} (x : A) (l : list A) (s e : Z) :
  In x (Array_slice l s e) -> In x l.
Proof. unfold Array_slice. intros H. by apply In_take, In_drop in H. Qed.

(** What [listOrders] answers, read from the list it paginates. *)
Lemma listOrders_inv (orders : Store num) (req : Request num) slice pg :
  (listOrders orders req).2 = Sent (mkResponse 200 (Success (DataList slice pg))) ->
  exists l,
    userOrders orders req = Some l /\
    (slice, pg) = paginate l (effective_page (req_query req))
                             (effective_limit (req_query req)).
Proof.
  unfold listOrders. destruct (userOrders orders req) as [l|]; [|discriminate].
  destruct (includes (req_userRoles req) "admin"); [|discriminate].
  cbn [snd]. intros [= H1 H2]. exists l. split; [done|].
  unfold paginate. by rewrite <- H1, <- H2.
Qed.

(** The list that is paginated is the selection, sorted. *)
Lemma userOrders_sorted (orders : Store num) (req : Request num) l :
  userOrders orders req = Some l ->
  l = Array_sort (compareFn (effective_sortBy (req_query req))
                            (effective_sortOrder (req_query req)))
                 (selected orders req).
Proof.
  unfold userOrders, selected, matches_status.
  destruct (filter_visible req (Map_values orders)) as [v|] eqn:Ev; simpl; [|done].
  intros [= <-]. f_equal. apply filter_visible_spec in Ev. subst v.
  destruct (q_status (req_query req) ≫= status_enum) as [st|].
  - by rewrite filter_status_spec, filter_filter_andb.
  - rewrite <- filter_filter_andb. simpl.
    induction (List.filter (visible req) (Map_values orders)) as [|x r IH]; simpl; [done|].
    by rewrite <- IH.
Qed.

Lemma filter_visible_None (req : Request num) (l : list (Order num)) :
  filter_visible req l = None <->
  includes (req_userRoles req) "admin" = None /\
  exists o, In o l /\ userId o <> req_userId req.
Proof.
  induction l as [|o rest IH]; simpl.
  - split; [done | by intros [_ [o [[] _]]]].
  - destruct (String.eqb (userId o) (req_userId req)) eqn:E; simpl.
    + apply String.eqb_eq in E.
      destruct (filter_visible req rest) as [r|] eqn:Er; simpl.
      * split; [done|]. intros [Hi [o' [[<- | Hin] Hne]]]; [done|].
        assert (Some r = None) as Habs; [|done].
        apply IH. eauto.
      * split; [|done]. intros _.
        destruct (proj1 IH eq_refl) as [Hi [o' [Hin Hne]]]. split; [done|].
        exists o'. split; [by right | done].
    + apply String.eqb_neq in E.
      destruct (includes (req_userRoles req) "admin") as [b|] eqn:Ei; simpl.
      * destruct (filter_visible req rest) as [r|] eqn:Er; simpl.
        -- split; [done | by intros [? _]].
        -- split; [|done]. intros _. destruct (proj1 IH eq_refl). congruence.
      * split; [|done]. intros _. split; [done|]. exists o. by split; [left|].
Qed.

Lemma filter_visible_ext (req req' : Request num) (l : list (Order num)) :
  req_userId req = req_userId req' -> req_userRoles req = req_userRoles req' ->
  filter_visible req l = filter_visible req' l.
Proof.
  intros Hu Hr. induction l as [|o rest IH]; simpl; [done|].
  by rewrite Hu, Hr, IH.
Qed.

End ListingFacts.

(** X8: a caller who is no admin is shown nothing but their own orders:
    every order on every page of a listing is a stored order whose [userId]
    is the caller's. *)
Theorem listing_is_confidential {num : Type} {NUM : JSNumber num}
    (orders : Store num) (req : Request num)
    (slice : list (Order num)) (pg : Pagination) :
  lacks_admin req ->
  (listOrders orders req).2 =
    Sent (mkResponse 200 (Success (DataList slice pg))) ->
  Forall (fun o => userId o = req_userId req /\ In o (Map_values orders)) slice.
Proof.
  intros Hrole Hl. apply listOrders_inv in Hl as [l [Hl Hp]].
  apply Forall_forall. intros o Ho%list_elem_of_In.
  unfold paginate in Hp. injection Hp as -> _.
  apply In_Array_slice in Ho.
  apply userOrders_selected in Hl.
  apply (Permutation_in _ Hl) in Ho. unfold selected in Ho.
  apply filter_In in Ho as [Hin Hv]. split; [|done].
  apply andb_true_iff in Hv as [Hv _]. unfold visible in Hv.
  unfold lacks_admin in Hrole. rewrite Hrole in Hv. simpl in Hv.
  rewrite orb_false_r in Hv. by apply String.eqb_eq.
Qed.

Lemma listing_is_confidential_witness :
  Forall (fun o => userId o = "A" /\ In o (Map_values mixed_store)) [order_A created].
Proof.
  apply (listing_is_confidential mixed_store (list_by_A first_ten)
           [order_A created] (mkPagination 1 10 1 1 false false)); reflexivity.
Defined.


(** X9: a listing fails (the role check throws and the request is answered
    with 500) exactly when the role set has no [includes] method, also when
    the store is empty or holds the caller's orders only, because the check
    is evaluated once more for the log line; an answered listing is always
    200, and a listing never fails for a role set that is an array. *)
Theorem listing_fails_iff {num : Type} {NUM : JSNumber num}
    (orders : Store num) (req : Request num) :
  ((listOrders orders req).2 = Thrown TypeError <->
   includes (req_userRoles req) "admin" = None) /\
  (forall r, (listOrders orders req).2 = Sent r -> res_status r = 200%Z) /\
  (forall l, req_userRoles req = JArr l ->
     exists r, (listOrders orders req).2 = Sent r) /\
  (listOrders orders req).1 = orders.
Proof.
  assert (userOrders orders req = None ->
          includes (req_userRoles req) "admin" = None) as Hu.
  { unfold userOrders.
    destruct (filter_visible req (Map_values orders)) eqn:E; [done|].
    intros _. by apply filter_visible_None in E as [E _]. }
  unfold listOrders.
  destruct (userOrders orders req) as [x|] eqn:Ex.
  - destruct (includes (req_userRoles req) "admin") as [b|] eqn:Eb; cbn [fst snd].
    + split; [split; discriminate|]. split; [by intros r [= <-]|]. split; [eauto | done].
    + split; [done|]. split; [discriminate|]. split; [|done].
      intros l Hl. rewrite Hl in Eb. discriminate.
  - specialize (Hu eq_refl). cbn [fst snd]. split; [done|]. split; [discriminate|].
    split; [|done]. intros l Hl. rewrite Hl in Hu. discriminate.
Qed.

Lemma listing_fails_iff_witness :
  (listOrders (store_A created) (request_of "A" JNull "" JNull)).2 = Thrown TypeError.
Proof.
  apply (listing_fails_iff (store_A created) (request_of "A" JNull "" JNull)).
  reflexivity.
Defined.

(** X10: a page never holds more orders than the page size, itself at most
    100: it holds [min(limit, total - (page-1)*limit)] orders, and none at
    all beyond the last page. *)
Theorem page_length {num : Type} {NUM : JSNumber num}
    (orders : Store num) (req : Request num)
    (slice : list (Order num)) (pg : Pagination) :
  (listOrders orders req).2 =
    Sent (mkResponse 200 (Success (DataList slice pg))) ->
  (Z.of_nat (length slice) =
     Z.min (pg_limit pg) (Z.max 0 (pg_total pg - (pg_page pg - 1) * pg_limit pg)) /\
   Z.of_nat (length slice) <= pg_limit pg <= 100 /\
   (pg_totalPages pg < pg_page pg -> slice = []))%Z.
Proof.
  intros Hl. apply listOrders_inv in Hl as [l [Hl Hp]].
  pose proof (effective_limit_range (req_query req)) as Hlim.
  pose proof (effective_page_range (req_query req)) as Hpage.
  pose proof (page_window l _ _ Hpage (proj1 Hlim)) as Hw.
  pose proof (Math_ceil_div_spec (Z.of_nat (length l))
                (effective_limit (req_query req)) ltac:(lia)) as Hceil.
  unfold paginate in Hp, Hw. cbn [fst] in Hw. injection Hp as Hs ->.
  rewrite Hw in Hs. subst slice. cbn [pg_limit pg_total pg_page pg_totalPages].
  rewrite length_take, length_drop.
  assert (Z.of_nat (Z.to_nat (effective_limit (req_query req))
                    `min` (length l - Z.to_nat ((effective_page (req_query req) - 1)
                                                * effective_limit (req_query req)))) =
          Z.min (effective_limit (req_query req))
            (Z.max 0 (Z.of_nat (length l) - (effective_page (req_query req) - 1)
                                            * effective_limit (req_query req))))%Z as Hlen
    by nia.
  split; [exact Hlen|]. split; [lia|].
  intros Hlast. apply length_zero_iff_nil. rewrite length_take, length_drop. nia.
Qed.

Lemma page_length_witness :
  Z.of_nat (length (take 10 (Array_sort (compareFn "createdAt" (-1))
                                         (Map_values many_orders)))) =
  Z.min 10 (Z.max 0 (25 - (1 - 1) * 10)).
Proof.
  apply (page_length many_orders (list_by_A first_ten)
           (take 10 (Array_sort (compareFn "createdAt" (-1)) (Map_values many_orders)))
           (mkPagination 1 10 25 3 true false)).
  reflexivity.
Defined.


(** X11: the [status] parameter filters when it names one of the four
    statuses, and then every listed order has that status; any other value
    is ignored, the answer being that of the same request without it. *)
Theorem status_filter {num : Type} {NUM : JSNumber num}
    (orders : Store num) (uid : string) (roles : JValue num) (pid : string)
    (body : JValue num) (page limit sortBy sortOrder : option string) (s : string) :
  let with_status := mkRequest uid roles pid body
                       (mkQuery page limit sortBy sortOrder (Some s)) in
  let without := mkRequest uid roles pid body
                   (mkQuery page limit sortBy sortOrder None) in
  (forall st slice pg,
     s = status_name st ->
     (listOrders orders with_status).2 =
       Sent (mkResponse 200 (Success (DataList slice pg))) ->
     Forall (fun o => status o = st) slice) /\
  ((forall st, s <> status_name st) ->
     listOrders orders with_status = listOrders orders without).
Proof.
  intros with_status without. split.
  - intros st slice pg -> Hl. apply listOrders_inv in Hl as [l [Hl Hp]].
    apply Forall_forall. intros o Ho%list_elem_of_In.
    unfold paginate in Hp. injection Hp as -> _. apply In_Array_slice in Ho.
    apply userOrders_selected in Hl. apply (Permutation_in _ Hl) in Ho.
    unfold selected in Ho. apply filter_In in Ho as [_ Hv].
    apply andb_true_iff in Hv as [_ Hv]. unfold matches_status in Hv.
    simpl in Hv. rewrite status_enum_name in Hv. by apply Status_eqb_eq.
  - intros Hno.
    assert (status_enum s = None) as Hs.
    { destruct (status_enum s) as [st|] eqn:E; [|done].
      apply status_enum_inv in E. by destruct (Hno st). }
    unfold listOrders, userOrders, with_status, without.
    cbn [req_query q_status].
    change (Some s ≫= status_enum) with (status_enum s). rewrite Hs.
    by rewrite (filter_visible_ext _ (mkRequest uid roles pid body
                 (mkQuery page limit sortBy sortOrder None))).
Qed.

Lemma status_filter_witness :
  listOrders mixed_store
    (mkRequest "A" user_roles "" JNull (mkQuery None None None None (Some "shipped"))) =
  listOrders mixed_store
    (mkRequest "A" user_roles "" JNull (mkQuery None None None None None)).
Proof.
  apply (status_filter mixed_store "A" user_roles "" JNull None None None None "shipped").
  intros st. destruct st; discriminate.
Defined.


Section SortFacts.

Context {num : Type} {NUM : JSNumber num}.

Lemma sort_insert_sorted {A : Type} (cmp : A -> A -> Z) (R : A -> A -> Prop)
    (x : A) (l : list A) :
  (forall a b, (cmp a b <= 0)%Z -> R a b) ->
  (forall a b, ~ (cmp a b <= 0)%Z -> R b a) ->
  (forall a b c, R a b -> R b c -> R a c) ->
  StronglySorted R l -> StronglySorted R (sort_insert cmp x l).
Proof.
  intros Hle Hgt Htrans Hs. induction Hs as [|y rest Hrest IH Hy]; simpl.
  - by repeat constructor.
  - destruct (cmp x y <=? 0)%Z eqn:E.
    + apply Z.leb_le in E. constructor; [by constructor|].
      constructor; [by apply Hle|].
      eapply Forall_impl; [exact Hy|]. intros z Hz. simpl in Hz.
      eapply Htrans; [apply Hle, E | exact Hz].
    + apply Z.leb_gt in E. constructor; [exact IH|].
      assert (sort_insert cmp x rest ≡ₚ x :: rest) as Hp by apply sort_insert_perm.
      apply Forall_forall. intros z Hz%list_elem_of_In.
      apply (Permutation_in _ Hp) in Hz. destruct Hz as [<- | Hz].
      * apply Hgt. lia.
      * rewrite Forall_forall in Hy. by apply Hy, list_elem_of_In.
Qed.

Lemma Array_sort_sorted {A : Type} (cmp : A -> A -> Z) (R : A -> A -> Prop)
    (l : list A) :
  (forall a b, (cmp a b <= 0)%Z -> R a b) ->
  (forall a b, ~ (cmp a b <= 0)%Z -> R b a) ->
  (forall a b c, R a b -> R b c -> R a c) ->
  StronglySorted R (Array_sort cmp l).
Proof.
  intros Hle Hgt Htrans. unfold Array_sort.
  induction l as [|x l IH]; simpl; [constructor|].
  by apply sort_insert_sorted.
Qed.

(** Elements that the comparator does not tell apart keep their order. *)
Lemma sort_insert_stable {A : Type} (cmp : A -> A -> Z) (P : A -> bool)
    (x : A) (l : list A) :
  (forall a b, P a = true -> P b = true -> (cmp a b <= 0)%Z) ->
  List.filter P (sort_insert cmp x l) = List.filter P (x :: l).
Proof.
  intros Hsame. induction l as [|y rest IH]; [done|].
  cbn [sort_insert]. destruct (cmp x y <=? 0)%Z eqn:E; [done|].
  apply Z.leb_gt in E. cbn [List.filter] in *. rewrite IH.
  destruct (P x) eqn:Ex, (P y) eqn:Ey; try done.
  specialize (Hsame x y Ex Ey). lia.
Qed.

Lemma Array_sort_stable {A : Type} (cmp : A -> A -> Z) (P : A -> bool) (l : list A) :
  (forall a b, P a = true -> P b = true -> (cmp a b <= 0)%Z) ->
  List.filter P (Array_sort cmp l) = List.filter P l.
Proof.
  intros Hsame. unfold Array_sort. induction l as [|x l IH]; [done|].
  cbn [foldr]. rewrite sort_insert_stable by done.
  cbn [List.filter]. by rewrite IH.
Qed.

Lemma Array_sort_ties {A : Type} (cmp : A -> A -> Z) (l : list A) :
  (forall a b, cmp a b = 0%Z) -> Array_sort cmp l = l.
Proof.
  intros H0. unfold Array_sort. induction l as [|x l IH]; [done|].
  cbn [foldr]. rewrite IH. destruct l as [|y l]; [done|].
  simpl. by rewrite H0.
Qed.

Lemma compareFn_date (sortBy : string) (sortOrder : Z) (a b : Order num) :
  sortBy = "createdAt" \/ sortBy = "updatedAt" ->
  compareFn sortBy sortOrder a b =
    if (sort_date sortBy a <? sort_date sortBy b)%Z then (-1 * sortOrder)%Z
    else if (sort_date sortBy b <? sort_date sortBy a)%Z then (1 * sortOrder)%Z
    else 0%Z.
Proof. by intros [-> | ->]. Qed.

Lemma effective_sortOrder_cases (q : Query) :
  effective_sortOrder q = 1%Z \/ effective_sortOrder q = (-1)%Z.
Proof.
  unfold effective_sortOrder. destruct (q_sortOrder q) as [s|]; [|by right].
  destruct (String.eqb s "asc"); [by left | by right].
Qed.

Lemma sort_value_other (sortBy : string) (o : Order num) :
  ~ In sortBy order_fields -> sort_value o sortBy = VOther.
Proof.
  intros Hn. unfold sort_value.
  repeat match goal with
  | |- context [String.eqb sortBy ?f] =>
      let E := fresh "E" in
      destruct (String.eqb sortBy f) eqn:E;
        [apply String.eqb_eq in E; destruct Hn; rewrite E; simpl; tauto|]
  end.
  done.
Qed.

End SortFacts.

(** X12: a listing sorted by a date (the default, [createdAt], or
    [updatedAt]) is in order of that date, newest first unless
    [sortOrder=asc], and orders with the same date stay in the order in
    which they were stored. *)
Theorem listing_sorted_by_date {num : Type} {NUM : JSNumber num}
    (orders : Store num) (req : Request num) (l : list (Order num)) (d : Z) :
  let sortBy := effective_sortBy (req_query req) in
  let sortOrder := effective_sortOrder (req_query req) in
  userOrders orders req = Some l ->
  sortBy = "createdAt" \/ sortBy = "updatedAt" ->
  StronglySorted (date_ordered sortBy sortOrder) l /\
  List.filter (fun o => (sort_date sortBy o =? d)%Z) l =
    List.filter (fun o => (sort_date sortBy o =? d)%Z) (selected orders req).
Proof.
  intros sortBy sortOrder Hl Hdate. apply userOrders_sorted in Hl.
  fold sortBy sortOrder in Hl. subst l.
  pose proof (effective_sortOrder_cases (req_query req)) as Hso. fold sortOrder in Hso.
  split.
  - apply Array_sort_sorted.
    + intros a b. rewrite compareFn_date by done. unfold date_ordered.
      destruct Hso as [-> | ->]; simpl;
        destruct (sort_date sortBy a <? sort_date sortBy b)%Z eqn:E1;
        destruct (sort_date sortBy b <? sort_date sortBy a)%Z eqn:E2; lia.
    + intros a b. rewrite compareFn_date by done. unfold date_ordered.
      destruct Hso as [-> | ->]; simpl;
        destruct (sort_date sortBy a <? sort_date sortBy b)%Z eqn:E1;
        destruct (sort_date sortBy b <? sort_date sortBy a)%Z eqn:E2; lia.
    + intros a b c. unfold date_ordered. destruct (sortOrder =? 1)%Z; lia.
  - apply Array_sort_stable. intros a b Ha Hb. rewrite compareFn_date by done.
    apply Z.eqb_eq in Ha, Hb.
    replace (sort_date sortBy a <? sort_date sortBy b)%Z with false
      by (symmetry; apply Z.ltb_ge; lia).
    replace (sort_date sortBy b <? sort_date sortBy a)%Z with false
      by (symmetry; apply Z.ltb_ge; lia).
    lia.
Qed.

Lemma listing_sorted_by_date_witness :
  StronglySorted (date_ordered "createdAt" (-1))
    (Array_sort (compareFn "createdAt" (-1)) (Map_values many_orders)).
Proof.
  apply (listing_sorted_by_date many_orders (list_by_A first_ten) _ 1000).
  - reflexivity.
  - left. reflexivity.
Defined.


(** X13: a [sortBy] that names no field of an order sorts nothing: the
    listing is the selection in the order in which the orders were stored. *)
Theorem unknown_sort_key {num : Type} {NUM : JSNumber num}
    (orders : Store num) (req : Request num) (l : list (Order num)) :
  userOrders orders req = Some l ->
  ~ In (effective_sortBy (req_query req)) order_fields ->
  l = selected orders req.
Proof.
  intros Hl Hn. apply userOrders_sorted in Hl. subst l.
  apply Array_sort_ties. intros a b. unfold compareFn.
  by rewrite !sort_value_other.
Qed.

Lemma unknown_sort_key_witness :
  Array_sort (compareFn "price" (-1)) (Map_values many_orders) =
  selected many_orders (list_by_A by_price).
Proof.
  apply (unknown_sort_key many_orders (list_by_A by_price)).
  - reflexivity.
  - simpl. intros [H | [H | [H | [H | [H | [H | [H | []]]]]]]]; discriminate.
Defined.


Section NewestFacts.

Context {num : Type} {NUM : JSNumber num}.

Lemma Array_sort_last_first {A : Type} (cmp : A -> A -> Z) (x : A) (l : list A) :
  Forall (fun y => ~ (cmp y x <= 0)%Z) l ->
  Array_sort cmp (l ++ [x]) = x :: Array_sort cmp l.
Proof.
  intros Hl. unfold Array_sort. induction Hl as [|y l Hy _ IH]; [done|].
  cbn [app foldr]. rewrite IH. cbn [sort_insert].
  by replace (cmp y x <=? 0)%Z with false by (symmetry; apply Z.leb_gt; lia).
Qed.

Lemma filter_visible_total (req : Request num) (l : list (Order num)) (b : bool) :
  includes (req_userRoles req) "admin" = Some b ->
  filter_visible req l = Some (List.filter (visible req) l).
Proof.
  intros Hb. destruct (filter_visible req l) as [r|] eqn:E.
  - by rewrite (filter_visible_spec _ _ _ E).
  - apply filter_visible_None in E as [E _]. congruence.
Qed.

Lemma userOrders_total (orders : Store num) (req : Request num) (b : bool) :
  includes (req_userRoles req) "admin" = Some b ->
  userOrders orders req =
    Some (Array_sort (compareFn (effective_sortBy (req_query req))
                                (effective_sortOrder (req_query req)))
                     (selected orders req)) /\
  exists l, userOrders orders req = Some l.
Proof.
  intros Hb.
  destruct (userOrders orders req) as [l|] eqn:E.
  - split; [|eauto]. by rewrite (userOrders_sorted _ _ _ E) at 1.
  - unfold userOrders in E. rewrite (filter_visible_total req _ b) in E by done.
    discriminate.
Qed.

End NewestFacts.

(** X14: a new order heads its owner's listing: when an order is created
    under an identifier not yet stored and at a time later than the
    creation of every stored order, the owner's next listing without
    parameters starts with it. *)
Theorem new_order_listed_first {num : Type} {NUM : JSNumber num}
    (uuid : string) (now1 now2 : Z) (orders : Store num) (req : Request num)
    (its : list (Item num)) (b : bool) :
  valid_body (req_body req) its ->
  Map_get orders uuid = None ->
  Forall (fun o => (createdAt o < now1)%Z) (Map_values orders) ->
  includes (req_userRoles req) "admin" = Some b ->
  let created_order := mkOrder uuid (req_userId req) its created
                         (num_toFixed2 (reduce_total its)) now1 now2 in
  let orders' := (postOrders uuid now1 now2 orders req).1 in
  let listing := mkRequest (req_userId req) (req_userRoles req) "" JNull
                           (mkQuery None None None None None) in
  exists rest pg,
    listOrders orders' listing =
      (orders', Sent (mkResponse 200 (Success (DataList (created_order :: rest) pg)))).
Proof.
  intros Hv Hfresh Hold Hb created_order orders' listing.
  assert (orders' = orders ++ [(uuid, created_order)]) as Ho.
  { unfold orders', postOrders. apply createOrderSchema_accepts in Hv. rewrite Hv.
    cbn [fst id]. by apply Map_set_fresh. }
  assert (userOrders orders' listing =
          Some (created_order ::
                Array_sort (compareFn "createdAt" (-1))
                           (List.filter (visible listing) (Map_values orders)))) as Hu.
  { unfold userOrders. rewrite (filter_visible_total listing _ b) by done.
    cbn [mbind option_bind]. f_equal. cbn [listing req_query q_status].
    change (effective_sortBy _) with "createdAt".
    change (effective_sortOrder _) with (-1)%Z.
    rewrite Ho. unfold Map_values. rewrite map_app, List.filter_app.
    cbn [map List.filter snd].
    replace (visible listing created_order) with true
      by (unfold visible; simpl; by rewrite String.eqb_refl).
    apply Array_sort_last_first.
    apply Forall_forall. intros o Ho'%list_elem_of_In. apply filter_In in Ho' as [Ho' _].
    rewrite Forall_forall in Hold. specialize (Hold o (proj2 (list_elem_of_In _ _) Ho')).
    unfold compareFn. simpl.
    replace (createdAt o <? now1)%Z with true by (symmetry; apply Z.ltb_lt; lia).
    lia. }
  unfold listOrders. rewrite Hu.
  change (req_userRoles listing) with (req_userRoles req). rewrite Hb. cbn [fst snd].
  change (effective_page (req_query listing)) with 1%Z.
  change (effective_limit (req_query listing)) with 10%Z.
  rewrite page_window by lia. cbn [Z.to_nat Z.sub Z.mul drop].
  change (Z.to_nat 10) with 10%nat. cbn [take]. eauto.
Qed.

Lemma new_order_listed_first_witness :
  exists rest pg,
    listOrders (postOrders "o3" 2000 2001 mixed_store create_by_A).1
               (mkRequest "A" user_roles "" JNull (mkQuery None None None None None)) =
      ((postOrders "o3" 2000 2001 mixed_store create_by_A).1,
       Sent (mkResponse 200 (Success
         (DataList (mkOrder "o3" "A" [cement] created 17500%Z 2000 2001 :: rest) pg)))).
Proof.
  refine (new_order_listed_first "o3" 2000 2001 mixed_store create_by_A [cement] false
            cement_body_valid _ _ _).
  - reflexivity.
  - repeat constructor; simpl; lia.
  - reflexivity.
Defined.



(** X15: an admin's listing without a status filter holds every stored
    order, each once. *)
Theorem admin_lists_everything {num : Type} {NUM : JSNumber num}
    (orders : Store num) (req : Request num) (l : list (Order num)) :
  holds_admin req ->
  q_status (req_query req) = None ->
  userOrders orders req = Some l ->
  l ≡ₚ Map_values orders.
Proof.
  intros Hadmin Hq Hl. apply userOrders_selected in Hl. rewrite Hl.
  unfold selected, matches_status, visible. rewrite Hq. unfold holds_admin in Hadmin.
  rewrite Hadmin. simpl.
  induction (Map_values orders) as [|o rest IH]; [done|].
  simpl. rewrite orb_true_r. simpl. by rewrite IH.
Qed.

Lemma admin_lists_everything_witness :
  Array_sort (compareFn "createdAt" (-1)) (Map_values mixed_store)
    ≡ₚ Map_values mixed_store.
Proof.
  apply (admin_lists_everything mixed_store (list_by_admin no_query)); reflexivity.
Defined.



Section AnswerFacts.

Context {num : Type} {NUM : JSNumber num}.

Lemma parse_create_errors (body : JValue num) errors :
  parse (createOrderSchema body) = ZodError errors ->
  errors <> [] /\ errors = (createOrderSchema body).1.
Proof.
  intros Hp.
  assert (forall its, ~ valid_body body its) as Hno.
  { intros its Hv. apply createOrderSchema_accepts in Hv. congruence. }
  destruct (createOrderSchema_rejects body Hno) as [first [rest [H1 H2]]].
  rewrite Hp in H2. injection H2 as ->. by rewrite H1.
Qed.

Lemma parse_status_errors (body : JValue num) errors :
  parse (updateStatusSchema body) = ZodError errors -> errors <> [].
Proof.
  unfold updateStatusSchema, parse.
  destruct body as [| | | | |members]; try (intros [= <-]; done).
  destruct (obj_get members "status") as [[| | |s| |]|]; try (intros [= <-]; done).
  destruct (status_enum s); [discriminate | intros [= <-]; done].
Qed.

End AnswerFacts.

(** X16: a create request is always answered with 201 or with 400: the
    handler never throws and never answers 500, whatever the body and the
    caller's role set. *)
Theorem create_always_answers {num : Type} {NUM : JSNumber num}
    (uuid : string) (now1 now2 : Z) (orders : Store num) (req : Request num) :
  answered (postOrders uuid now1 now2 orders req).2 [201; 400]%Z.
Proof.
  unfold postOrders, answered.
  destruct (parse (createOrderSchema (req_body req))) as [its|errors] eqn:E.
  - eexists. split; [reflexivity|]. simpl. tauto.
  - apply parse_create_errors in E as [Hne _].
    destruct errors as [|first rest]; [done|].
    eexists. split; [reflexivity|]. simpl. tauto.
Qed.

(** X17: when the role check can be evaluated on the caller's role set (it
    is an array, as the gateway sends it, or a string), no handler throws
    and none answers 500: reads answer 200, 403 or 404, listings 200, status
    updates and cancellations 200, 400, 403 or 404. *)
Theorem no_internal_error {num : Type} {NUM : JSNumber num}
    (orders : Store num) (req : Request num) (now : Z) (b : bool) :
  includes (req_userRoles req) "admin" = Some b ->
  answered (getOrder orders req).2 [200; 403; 404]%Z /\
  answered (listOrders orders req).2 [200]%Z /\
  answered (patchStatus now orders req).2 [200; 400; 403; 404]%Z /\
  answered (deleteOrder now orders req).2 [200; 400; 403; 404]%Z.
Proof.
  intros Hb.
  assert (forall o, exists d, access_denied o req = Some d) as Hacc.
  { intros o. unfold access_denied. destruct (String.eqb _ _); [eauto|].
    rewrite Hb. simpl. eauto. }
  unfold answered. split; [|split; [|split]].
  - unfold getOrder. destruct (Map_get _ _) as [o|];
      [|eexists; split; [reflexivity | simpl; tauto]].
    destruct (Hacc o) as [[|] ->]; eexists; (split; [reflexivity | simpl; tauto]).
  - unfold listOrders. rewrite (proj1 (userOrders_total orders req b Hb)), Hb.
    eexists; split; [reflexivity | simpl; tauto].
  - unfold patchStatus.
    destruct (parse (updateStatusSchema (req_body req))) as [st|errors] eqn:E.
    + destruct (Map_get _ _) as [o|];
        [|eexists; split; [reflexivity | simpl; tauto]].
      destruct (Hacc o) as [[|] ->];
        [eexists; split; [reflexivity | simpl; tauto]|].
      destruct (_ && _); [eexists; split; [reflexivity | simpl; tauto]|].
      destruct (_ && _); eexists; (split; [reflexivity | simpl; tauto]).
    + apply parse_status_errors in E. destruct errors as [|first rest]; [done|].
      eexists; split; [reflexivity | simpl; tauto].
  - unfold deleteOrder. destruct (Map_get _ _) as [o|];
      [|eexists; split; [reflexivity | simpl; tauto]].
    destruct (Hacc o) as [[|] ->];
      [eexists; split; [reflexivity | simpl; tauto]|].
    destruct (Status_eqb _ completed); [eexists; split; [reflexivity | simpl; tauto]|].
    destruct (Status_eqb _ cancelled); eexists; (split; [reflexivity | simpl; tauto]).
Qed.

Lemma no_internal_error_witness :
  answered (getOrder (store_A created) read_by_B).2 [200; 403; 404]%Z.
Proof.
  apply (no_internal_error (store_A created) read_by_B 2000 false).
  reflexivity.
Defined.


(** X18: a role set on which the role check cannot be evaluated (JSON
    [null], a number, a boolean, an object) breaks every request on somebody
    else's order: the read and the cancel throw, the status update lands in
    its [catch], and all three are answered with INTERNAL_ERROR (500), the
    store untouched. *)
Theorem unusable_role_set {num : Type} {NUM : JSNumber num}
    (orders : Store num) (req : Request num) (order : Order num)
    (now : Z) (target : Status) :
  Map_get orders (req_params_id req) = Some order ->
  ~ is_owner order req ->
  includes (req_userRoles req) "admin" = None ->
  targets req target ->
  getOrder orders req = (orders, Thrown TypeError) /\
  deleteOrder now orders req = (orders, Thrown TypeError) /\
  patchStatus now orders req = (orders, Sent internal_error) /\
  express (getOrder orders req).2 = internal_error /\
  res_status (internal_error : Response num) = 500%Z.
Proof.
  intros Hget Hown Hinc Htarget.
  assert (access_denied order req = None) as Hacc.
  { unfold access_denied, is_owner in *.
    destruct (String.eqb (userId order) (req_userId req)) eqn:E.
    - apply String.eqb_eq in E. contradiction.
    - by rewrite Hinc. }
  apply parse_targets in Htarget.
  unfold getOrder, deleteOrder, patchStatus. by rewrite Htarget, Hget, Hacc.
Qed.

Lemma unusable_role_set_witness :
  patchStatus 2000 (store_A created) null_roles_by_B =
    (store_A created, Sent internal_error).
Proof.
  apply (unusable_role_set (store_A created) null_roles_by_B (order_A created)
           2000 completed).
  - reflexivity.
  - unfold is_owner. simpl. discriminate.
  - reflexivity.
  - exists [("status", JStr "completed")]. split; reflexivity.
Defined.



Section IssueFacts.

Context {num : Type} {NUM : JSNumber num}.

Lemma item_violation_path path (v : JValue num) iss :
  ItemViolation path v iss ->
  issue_path iss = path \/
  exists field, In field ["product"; "quantity"; "price"] /\
                issue_path iss = path ++ [Key field].
Proof.
  intros H. destruct H; simpl; [by left | right ..];
    [exists "product" | exists "product" | exists "product"
    | exists "quantity" | exists "quantity" | exists "quantity"
    | exists "price" | exists "price"]; simpl; tauto.
Qed.

Lemma violation_located (body : JValue num) iss :
  Violation body iss -> located (items_count body) (issue_path iss).
Proof.
  intros H. destruct H as [H | members H0 H | members l H0 H Hl
                          | members l H0 H Hl | members l i v iss H0 H Hi Hv];
    unfold located; simpl; [tauto | tauto | tauto | tauto |].
  right. right. exists i. subst body. simpl. rewrite H. split.
  - by apply lookup_lt_Some in Hi.
  - apply item_violation_path in Hv as [-> | [field [Hf ->]]]; [by left|].
    right. by exists field.
Qed.

End IssueFacts.

(** X19: the details of a rejected create request point into the request:
    there is at least one issue, and the path of each is the body, its
    [items], one of the items that are there, or the [product], [quantity]
    or [price] of such an item. *)
Theorem issues_are_located {num : Type} {NUM : JSNumber num}
    (uuid : string) (now1 now2 : Z) (orders : Store num) (req : Request num)
    (r : Response num) (e : ErrorBody) :
  (postOrders uuid now1 now2 orders req).2 = Sent r ->
  res_body r = Failure e ->
  exists first rest,
    details e = Some (first :: rest) /\
    message e = issue_message first /\
    Forall (fun i => located (items_count (req_body req)) (issue_path i))
           (first :: rest).
Proof.
  unfold postOrders.
  destruct (parse (createOrderSchema (req_body req))) as [its|errors] eqn:E.
  - simpl. by intros [= <-].
  - apply parse_create_errors in E as [Hne ->].
    destruct (createOrderSchema (req_body req)).1 as [|first rest] eqn:Ei; [done|].
    simpl. intros [= <-] [= <-]. exists first, rest. repeat split.
    rewrite <- Ei. apply Forall_forall. intros i Hi%list_elem_of_In.
    by apply violation_located, createOrderSchema_issues.
Qed.

Lemma issues_are_located_witness :
  exists first rest,
    Some [mkIssue (too_small zt_array 1 true) [Key "items"]
            (Text "Заказ должен содержать хотя бы один товар")] = Some (first :: rest) /\
    Text "Заказ должен содержать хотя бы один товар" = issue_message first /\
    Forall (fun i => located (items_count (req_body create_nothing)) (issue_path i))
           (first :: rest).
Proof.
  apply (issues_are_located "o1" 1000 1001 ([] : Store Z) create_nothing
           (mkResponse 400 (Failure
              (mkError "VALIDATION_ERROR"
                 (Text "Заказ должен содержать хотя бы один товар")
                 (Some [mkIssue (too_small zt_array 1 true) [Key "items"]
                          (Text "Заказ должен содержать хотя бы один товар")]))))
           (mkError "VALIDATION_ERROR"
              (Text "Заказ должен содержать хотя бы один товар")
              (Some [mkIssue (too_small zt_array 1 true) [Key "items"]
                       (Text "Заказ должен содержать хотя бы один товар")])));
    reflexivity.
Defined.


(** X20: the length of [items] is judged before the items themselves: an
    empty array is reported by the single issue that an order needs at least
    one item, and an array of more than 100 items is reported first of all
    as too long, whatever the items are. *)
Theorem length_checks_first {num : Type} {NUM : JSNumber num}
    (uuid : string) (now1 now2 : Z) (orders : Store num) (req : Request num)
    (members : list (string * JValue num)) (l : list (JValue num)) :
  req_body req = JObj members ->
  obj_get members "items" = Some (JArr l) ->
  (l = [] ->
     postOrders uuid now1 now2 orders req =
       (orders,
        Sent (mkResponse 400 (Failure
          (mkError "VALIDATION_ERROR"
             (Text "Заказ должен содержать хотя бы один товар")
             (Some [mkIssue (too_small zt_array 1 true) [Key "items"]
                      (Text "Заказ должен содержать хотя бы один товар")])))))) /\
  ((100 < length l)%nat ->
     exists rest,
       postOrders uuid now1 now2 orders req =
         (orders,
          Sent (mkResponse 400 (Failure
            (mkError "VALIDATION_ERROR"
               (Text "Слишком много товаров в заказе")
               (Some (mkIssue (too_big zt_array 100 true) [Key "items"]
                        (Text "Слишком много товаров в заказе") :: rest))))))).
Proof.
  intros Hb Hi. unfold postOrders. rewrite Hb. simpl. rewrite Hi.
  cbn [items_schema]. split.
  - by intros ->.
  - intros Hlen.
    replace (Z.of_nat (length l) <? 1)%Z with false by (symmetry; apply Z.ltb_ge; lia).
    replace (100 <? Z.of_nat (length l))%Z with true by (symmetry; apply Z.ltb_lt; lia).
    cbn [issue_if app parse]. eauto.
Qed.

Lemma length_checks_first_witness :
  postOrders "o1" 1000 1001 [] create_nothing =
    ([],
     Sent (mkResponse 400 (Failure
       (mkError "VALIDATION_ERROR"
          (Text "Заказ должен содержать хотя бы один товар")
          (Some [mkIssue (too_small zt_array 1 true) [Key "items"]
                   (Text "Заказ должен содержать хотя бы один товар")]))))).
Proof.
  apply (length_checks_first "o1" 1000 1001 [] create_nothing
           [("items", JArr [])] []); reflexivity.
Defined.


Section GuardFacts.

Context {num : Type} {NUM : JSNumber num}.

Lemma some_includes_true (userRoles : JValue num) (roles : list string) :
  some_includes userRoles roles = Some true ->
  exists role, In role roles /\ includes userRoles role = Some true.
Proof.
  induction roles as [|role rest IH]; simpl; [discriminate|].
  destruct (includes userRoles role) as [[|]|] eqn:E; try discriminate.
  - intros _. exists role. by split; [left|].
  - intros H. destruct (IH H) as [r [Hin Hr]]. exists r. by split; [right|].
Qed.

Lemma some_includes_array (l : list (JValue num)) (roles : list string) :
  some_includes (JArr l) roles =
    Some (existsb (fun role => existsb (fun v => is_str v role) l) roles).
Proof.
  induction roles as [|role rest IH]; [done|].
  cbn [some_includes existsb includes].
  destruct (existsb (fun v => is_str v role) l); [done|]. by rewrite IH.
Qed.

End GuardFacts.

(** X21: the gateway's role guard lets a request pass only if the verified
    token is an object with a [roles] member on which one of the required
    roles is found; when [roles] is an array it passes exactly when the
    array holds one of the required roles, and refuses with FORBIDDEN (403)
    otherwise, in particular always when no role is required. *)
Theorem requireRole_guards {num : Type} {NUM : JSNumber num}
    (roles : list string) (user : option (JValue num)) :
  (requireRole roles user = GuardNext ->
   exists members userRoles role,
     user = Some (JObj members) /\
     obj_get members "roles" = Some userRoles /\
     In role roles /\ includes userRoles role = Some true) /\
  (forall members l,
     user = Some (JObj members) ->
     obj_get members "roles" = Some (JArr l) ->
     ((exists role, In role roles /\ In (JStr role) l) ->
        requireRole roles user = GuardNext) /\
     (~ (exists role, In role roles /\ In (JStr role) l) ->
        exists r, requireRole roles user = GuardSent r /\
                  res_status r = 403%Z /\ res_code r = Some "FORBIDDEN")).
Proof.
  split.
  - unfold requireRole.
    destruct user as [[| | | | |members]|]; simpl;
      try discriminate; try (destruct b; discriminate);
      try (destruct (_ || _); discriminate);
      try (destruct (negb _); discriminate).
    destruct (obj_get members "roles") as [userRoles|] eqn:Er; [|discriminate].
    destruct (negb (truthy (Some userRoles))); [discriminate|]. simpl.
    destruct (some_includes userRoles roles) as [[|]|] eqn:E; try discriminate.
    intros _. apply some_includes_true in E as [role [Hin Hr]].
    by exists members, userRoles, role.
  - intros members l -> Hr. unfold requireRole. simpl. rewrite Hr. simpl.
    rewrite some_includes_array.
    destruct (existsb (fun role => existsb (fun v => is_str v role) l) roles) eqn:E.
    + split; [done|]. intros Hno. destruct Hno.
      apply existsb_exists in E as [role [Hin E]]. exists role. split; [done|].
      by apply includes_array; simpl; rewrite E.
    + split; [|intros _; eexists; split; [reflexivity | done]].
      intros [role [Hin Hl]].
      assert (existsb (fun role => existsb (fun v => is_str v role) l) roles = true)
        as Habs; [|congruence].
      apply existsb_exists. exists role. split; [done|].
      apply includes_array in Hl. by injection Hl.
Qed.

Lemma requireRole_guards_witness :
  requireRole ["admin"] (Some admin_token) = GuardNext.
Proof.
  apply (proj2 (requireRole_guards ["admin"] (Some admin_token))
           [("userId", JStr "root"); ("roles", JArr [JStr "admin"; JStr "user"])]
           [JStr "admin"; JStr "user"]).
  - reflexivity.
  - reflexivity.
  - exists "admin". split; left; reflexivity.
Defined.

